(** * The evaluation engine of ell (src/ell/evaluation.py)

    A shallow embedding of [EvaluationRun], [Evaluation.validate_criteria],
    [Evaluation._process_single] and [Evaluation.run], and the properties of
    the engine that the specification states.

    Python values are an inductive type, exceptions are the [Raise] case of a
    result type, dictionaries that are only looked up are [gmap]s, and
    dictionaries whose iteration order is observable are association lists.
    The process-wide [config.verbose] flag, the wall clock and the run record
    being filled in live in an explicit [World] that [run] threads through a
    small state-and-exception monad. *)

From Stdlib Require Import ZArith.
From Stdlib Require Import Floats.SpecFloat.
From stdpp Require Import gmap strings list fin_maps.

#[local] Set Warnings "-register-all".

(** ** Python values and exceptions *)

(** The values that flow through the engine: datapoint fields, LMP outputs
    and criterion results.  A [dict] value has string keys, as a datapoint
    read from JSON has. *)
Inductive PyVal : Type :=
| VNone
| VBool (b : bool)
| VInt (z : Z)
| VFloat (f : spec_float)
| VStr (s : string)
| VList (l : list PyVal)
| VTuple (l : list PyVal)
| VDict (d : list (string * PyVal)).

(** [type(v).__name__] *)
Definition type_name (v : PyVal) : string :=
  match v with
  | VNone => "NoneType"
  | VBool _ => "bool"
  | VInt _ => "int"
  | VFloat _ => "float"
  | VStr _ => "str"
  | VList _ => "list"
  | VTuple _ => "tuple"
  | VDict _ => "dict"
  end.

(** How an f-string prints a type object: [f"{type(v)}"]. *)
Definition class_repr (cls : string) : string := "<class '" +:+ cls +:+ "'>".

(** [isinstance(v, list)] *)
Definition is_list (v : PyVal) : bool :=
  match v with VList _ => true | _ => false end.

(** The values Python calls sequences ([collections.abc.Sequence]). *)
Definition is_sequence (v : PyVal) : bool :=
  match v with VList _ | VTuple _ | VStr _ => true | _ => false end.

Inductive PyErr : Type :=
| ValueError (msg : string)
| TypeError (msg : string)
| KeyError (key : string)
| IndexError (msg : string)
| OverflowError (msg : string)
| StatisticsError (msg : string)
| OtherError (cls msg : string).

(** The outcome of evaluating an expression: a value, or a raised exception. *)
Inductive Res (A : Type) : Type :=
| Ok (a : A)
| Raise (e : PyErr).
Arguments Ok {A} a.
Arguments Raise {A} e.

#[global] Instance Res_ret : MRet Res := @Ok.
#[global] Instance Res_bind : MBind Res := λ A B f m,
  match m with Ok a => f a | Raise e => Raise e end.

Definition is_ok {A} (r : Res A) : bool :=
  match r with Ok _ => true | Raise _ => false end.

(** ** The builtin [float] *)

Section Builtins.

(** Python's parser of float literals in strings ([float("1.5")]); it is
    part of the interpreter, not of this repository. *)
Variable float_of_str : string → option spec_float.

(** [float(z)] for an [int]: the nearest double, ties to even, and
    [OverflowError] beyond the range of doubles. *)
Definition float_of_int (z : Z) : Res spec_float :=
  match binary_normalize 53 1024 z 0 false with
  | S754_infinity _ => Raise (OverflowError "int too large to convert to float")
  | f => Ok f
  end.

(** [float(v)].  The text of the [ValueError] is CPython's for a string that
    [repr] prints between single quotes, without escapes. *)
Definition py_float (v : PyVal) : Res spec_float :=
  match v with
  | VFloat f => Ok f
  | VInt z => float_of_int z
  | VBool b => float_of_int (if b then 1 else 0)
  | VStr s =>
      match float_of_str s with
      | Some f => Ok f
      | None => Raise (ValueError ("could not convert string to float: '" +:+ s +:+ "'"))
      end
  | _ => Raise (TypeError ("float() argument must be a string or a real number, not '"
                           +:+ type_name v +:+ "'"))
  end.

End Builtins.

(** ** Type aliases of the module *)

(** [Datapoint = Dict[str, Any]] *)
Abbreviation Datapoint := (gmap string PyVal).

(** An LMP, by what a call to it returns: it receives the positional
    arguments, the named arguments and [api_params], and it can read the
    process-wide [config.verbose] flag (its first argument here). *)
Definition LMP : Type :=
  bool → list PyVal → list (string * PyVal) → gmap string PyVal → Res PyVal.

(** [Criterion = Callable[[Datapoint, Any], float]]; nothing enforces the
    annotation, so a criterion returns any value or raises. *)
Definition Criterion : Type := Datapoint → PyVal → Res PyVal.

(** [Criteria = Dict[str, Criterion]], in insertion order. *)
Definition Criteria : Type := list (string * Criterion).

(** What one task returns: the outputs and, per criterion, their scores. *)
Definition TaskResult : Type := list PyVal * list (string * list spec_float).

(** ** EvaluationRun *)

Module EvaluationRun.

Record t : Type := mk {
  scores : gmap string (list spec_float);
  dataset : list Datapoint;
  lmp : option LMP;
  outputs : list PyVal;
  api_params : gmap string PyVal;
  start_time : Z;
  end_time : option Z;
}.

(** The [inputs] property: [[d['input'] for d in self.dataset]]. *)
Definition inputs (self : t) : Res (list PyVal) :=
  mapM (λ d : Datapoint,
          match d !! "input" with
          | Some v => Ok v
          | None => Raise (KeyError "input")
          end) (dataset self).

(** Attribute assignments [self.outputs = v], [self.scores = v],
    [self.end_time = v]. *)
Definition set_outputs (v : list PyVal) (self : t) : t :=
  mk (scores self) (dataset self) (lmp self) v (api_params self)
     (start_time self) (end_time self).

Definition set_scores (v : gmap string (list spec_float)) (self : t) : t :=
  mk v (dataset self) (lmp self) (outputs self) (api_params self)
     (start_time self) (end_time self).

Definition set_end_time (v : option Z) (self : t) : t :=
  mk (scores self) (dataset self) (lmp self) (outputs self) (api_params self)
     (start_time self) v.

(** [scores[name]] on the [defaultdict(list)] that [run] stores there. *)
Definition scores_at (self : t) (name : string) : list spec_float :=
  default [] (scores self !! name).

(** [write]: its body is [pass]. *)
Definition write (self : t) (serialized_evaluation_run : PyVal) : unit := ().

End EvaluationRun.

(** ** The world: global flag, clock, and the run record in the making *)

Record World : Type := mkWorld {
  verbose : bool;                       (* config.verbose *)
  clock : nat → Z;                      (* the i-th reading of datetime.now() *)
  reads : nat;                          (* readings taken so far *)
  record : option EvaluationRun.t;      (* the object [evaluation_run] names *)
}.

(** Computations that read and write the world and may raise. *)
Definition M (A : Type) : Type := World → Res A * World.

#[global] Instance M_ret : MRet M := λ A a w, (Ok a, w).
#[global] Instance M_bind : MBind M := λ A B f m w,
  match m w with
  | (Ok a, w') => f a w'
  | (Raise e, w') => (Raise e, w')
  end.

Definition lift {A} (r : Res A) : M A := λ w, (r, w).

Definition get_verbose : M bool := λ w, (Ok (verbose w), w).

Definition set_verbose (b : bool) : M unit := λ w,
  (Ok (), mkWorld b (clock w) (reads w) (record w)).

Definition datetime_now : M Z := λ w,
  (Ok (clock w (reads w)), mkWorld (verbose w) (clock w) (S (reads w)) (record w)).

(** The object [evaluation_run] names now has the value [r]. *)
Definition store (r : EvaluationRun.t) : M EvaluationRun.t := λ w,
  (Ok r, mkWorld (verbose w) (clock w) (reads w) (Some r)).

(** [try: body finally: handler] *)
Definition try_finally {A} (body : M A) (handler : M unit) : M A := λ w,
  match body w with
  | (r, w') =>
      match handler w' with
      | (Ok _, w'') => (r, w'')
      | (Raise e, w'') => (Raise e, w'')
      end
  end.

(** ** Constructing an EvaluationRun *)

(** A keyword argument of [EvaluationRun(...)]. *)
Inductive Arg : Type :=
| AScores (v : gmap string (list spec_float))
| ADataset (v : list Datapoint)
| ALmp (v : LMP)
| AOutputs (v : list PyVal)
| AParams (v : gmap string PyVal)
| ATime (v : Z).

Fixpoint kwarg (name : string) (kwargs : list (string * Arg)) : option Arg :=
  match kwargs with
  | [] => None
  | (k, a) :: kwargs' => if decide (k = name) then Some a else kwarg name kwargs'
  end.

(** One field of a pydantic model: the keyword of the field's own name when
    the call has it, the field's default otherwise.  An argument of the wrong
    kind fails validation (pydantic's [ValidationError] is a [ValueError]). *)
Definition field {A} (name : string) (as_A : Arg → option A) (dflt : M A)
    (kwargs : list (string * Arg)) : M A :=
  match kwarg name kwargs with
  | None => dflt
  | Some a =>
      match as_A a with
      | Some v => mret v
      | None => lift (Raise (ValueError ("validation error for EvaluationRun: " +:+ name)))
      end
  end.

(** The constructor call [EvaluationRun(k1=a1, ...)].  The class is a
    pydantic [BaseModel] whose [model_config] sets only
    [arbitrary_types_allowed], so [extra] keeps its default [ignore]: a
    keyword that names none of the seven fields is dropped.  [inputs] is a
    read-only property of the class, not a field. *)
Definition EvaluationRun_init (kwargs : list (string * Arg)) : M EvaluationRun.t :=
  scores ← field "scores" (λ a, match a with AScores v => Some v | _ => None end)
                 (mret ∅) kwargs;
  dataset ← field "dataset" (λ a, match a with ADataset v => Some v | _ => None end)
                  (mret []) kwargs;
  lmp ← field "lmp" (λ a, match a with ALmp v => Some (Some v) | _ => None end)
              (mret None) kwargs;
  outputs ← field "outputs" (λ a, match a with AOutputs v => Some v | _ => None end)
                  (mret []) kwargs;
  api_params ← field "api_params" (λ a, match a with AParams v => Some v | _ => None end)
                     (mret ∅) kwargs;
  start_time ← field "start_time" (λ a, match a with ATime v => Some v | _ => None end)
                     datetime_now kwargs;
  end_time ← field "end_time" (λ a, match a with ATime v => Some (Some v) | _ => None end)
                   (mret None) kwargs;
  store (EvaluationRun.mk scores dataset lmp outputs api_params start_time end_time).

(** ** Evaluation *)

(** A Python object offered as a criterion: a callable of class [cls] whose
    [__name__] is [name] when it has one (a [def] or [lambda] has class
    [function]; a lambda's name is ["<lambda>"]; a [functools.partial] has no
    name), or a value that is not callable. *)
Inductive CritObj : Type :=
| Callable (cls : string) (name : option string) (call : Criterion)
| NotCallable (v : PyVal).

(** [type(crit).__name__] *)
Definition crit_type (c : CritObj) : string :=
  match c with
  | Callable cls _ _ => cls
  | NotCallable v => type_name v
  end.

(** A list entry that is callable but has no usable name. *)
Definition anonymous (c : CritObj) : bool :=
  match c with
  | Callable _ None _ => true
  | Callable _ (Some n) _ => bool_decide (n = "<lambda>")
  | NotCallable _ => false
  end.

(** A list entry that validation accepts, under its name. *)
Definition named (c : CritObj) : bool :=
  match c with
  | Callable _ (Some n) _ => bool_decide (n ≠ "<lambda>")
  | _ => false
  end.

(** [callable(crit)] *)
Definition callable (c : CritObj) : bool :=
  match c with
  | Callable _ _ _ => true
  | NotCallable _ => false
  end.

(** [crit.__name__], for an object that has the attribute. *)
Definition crit_name (c : CritObj) : option string :=
  match c with
  | Callable _ name _ => name
  | NotCallable _ => None
  end.

(** What a caller can pass as [criteria]. *)
Inductive CriteriaArg : Type :=
| CList (l : list CritObj)
| CDict (d : list (string * CritObj))
| COther (v : PyVal).

(** [d[k] = v] on a dictionary kept in insertion order. *)
Fixpoint dict_set {V} (k : string) (v : V) (d : list (string * V)) : list (string * V) :=
  match d with
  | [] => [(k, v)]
  | (k', v') :: d' =>
      if decide (k' = k) then (k, v) :: d' else (k', v') :: dict_set k v d'
  end.

(** [statistics.mean(data)], for what it can raise: the text of the progress
    bar is not part of any result, only the exceptions of computing it are. *)
Definition statistics_mean (data : list spec_float) : Res unit :=
  match data with
  | [] => Raise (StatisticsError "mean requires at least one data point")
  | _ :: _ => Ok ()
  end.

(** [output[0]] *)
Definition first_item (output : list PyVal) : Res PyVal :=
  match output with
  | [] => Raise (IndexError "list index out of range")
  | o :: _ => Ok o
  end.

(** [concurrent.futures.as_completed]: the futures in the order in which
    they finish.  The order is chosen by the scheduler: at each step
    [hd 0 sched], reduced modulo the number of unfinished futures, says which
    of them finishes next.  Every [sched] describes a possible order and
    every order is described by a [sched]. *)
Fixpoint completion_order {A} (sched : list nat) (pending : list A) (n : nat) : list A :=
  match n with
  | O => []
  | S n' =>
      let k := hd 0 sched `mod` length pending in
      match pending !! k with
      | Some f => f :: completion_order (tl sched) (delete k pending) n'
      | None => []
      end
  end.

Definition as_completed {A} (sched : list nat) (fs : list A) : list A :=
  completion_order sched fs (length fs).

Module Evaluation.

Record t : Type := mk {
  name : string;
  dataset : list Datapoint;
  criteria : Criteria;
  default_api_params : option (gmap string PyVal);
}.

(** [write]: its body is [pass]. *)
Definition write (self : t) (serialized_evaluation_run : PyVal) : unit := ().

(** The loop of the list branch of [validate_criteria]. *)
Fixpoint validate_list (l : list CritObj) (criteria_dict : list (string * CritObj))
  : Res (list (string * CritObj)) :=
  match l with
  | [] => Ok criteria_dict
  | crit :: l' =>
      match crit with
      | NotCallable _ =>
          Raise (ValueError ("Each criterion must be a callable, got "
                             +:+ class_repr (crit_type crit)))
      | Callable _ None _ =>
          Raise (ValueError "Each criterion in a list must have a name (not a lambda)")
      | Callable _ (Some n) _ =>
          if decide (n = "<lambda>")
          then Raise (ValueError "Each criterion in a list must have a name (not a lambda)")
          else validate_list l' (dict_set n crit criteria_dict)
      end
  end.

(** The loop of the dict branch. *)
Fixpoint validate_dict (items : list (string * CritObj)) : Res unit :=
  match items with
  | [] => Ok ()
  | (name, crit) :: items' =>
      match crit with
      | NotCallable _ =>
          Raise (ValueError ("Criterion '" +:+ name +:+ "' must be a callable, got "
                             +:+ class_repr (crit_type crit)))
      | Callable _ _ _ => validate_dict items'
      end
  end.

Definition validate_criteria (criteria : CriteriaArg) : Res (list (string * CritObj)) :=
  match criteria with
  | CList l => validate_list l []
  | CDict d => _ ← validate_dict d; Ok d
  | COther v =>
      Raise (ValueError ("criteria must be either a list of callables or a dictionary, got "
                         +:+ class_repr (type_name v)))
  end.

Section Engine.

Variable float_of_str : string → option spec_float.

(** The first statement of [_process_single]: the call of the LMP, chosen by
    the type of [data_point['input']].  [lmp] takes [api_params] by keyword, so
    a dict input that has that key itself makes the call a [TypeError] (whose
    message Python prefixes with the name of the callee). *)
Definition call_lmp (verbose : bool) (data_point : Datapoint) (lmp : LMP)
    (api_params : gmap string PyVal) : Res PyVal :=
  match data_point !! "input" with
  | None => Raise (KeyError "input")
  | Some (VList args) => lmp verbose args [] api_params
  | Some (VDict kwargs) =>
      if bool_decide ("api_params" ∈ kwargs.*1)
      then Raise (TypeError "got multiple values for keyword argument 'api_params'")
      else lmp verbose [] kwargs api_params
  | Some v => Raise (ValueError ("Invalid input type: " +:+ class_repr (type_name v)))
  end.

(** [if not isinstance(lmp_output, list): lmp_output = [lmp_output]] *)
Definition normalize_output (lmp_output : PyVal) : list PyVal :=
  match lmp_output with
  | VList l => l
  | v => [v]
  end.

(** The outputs that a datapoint contributes: the normalized result of its
    LMP call (none when the call raises). *)
Definition lmp_outputs (verbose : bool) (data_point : Datapoint) (lmp : LMP)
    (api_params : gmap string PyVal) : list PyVal :=
  match call_lmp verbose data_point lmp api_params with
  | Ok lmp_output => normalize_output lmp_output
  | Raise _ => []
  end.

(** [float(crit(data_point, output))] *)
Definition score (crit : Criterion) (data_point : Datapoint) (output : PyVal)
  : Res spec_float :=
  v ← crit data_point output; py_float float_of_str v.

Definition _process_single (self : t) (verbose : bool) (data_point : Datapoint)
    (lmp : LMP) (api_params : gmap string PyVal) : Res TaskResult :=
  lmp_output ← call_lmp verbose data_point lmp api_params;
  let lmp_output := normalize_output lmp_output in
  match criteria self with
  | _ :: _ =>
      scores ← mapM (λ '(name, crit),
                       l ← mapM (score crit data_point) lmp_output;
                       Ok (name, l)) (criteria self);
      Ok (lmp_output, scores)
  | [] => Ok (lmp_output, [])
  end.

(** [for name, value in result.items(): scores[name].extend(value)] on the
    [defaultdict(list)]. *)
Definition extend_scores (scores : gmap string (list spec_float))
    (result : list (string * list spec_float)) : gmap string (list spec_float) :=
  foldl (λ s '(name, value), <[name := default [] (s !! name) ++ value]> s)
        scores result.

(** The update of the progress bar after one future; it can raise. *)
Definition set_postfix (self : t) (scores : gmap string (list spec_float))
    (output : list PyVal) : Res unit :=
  match criteria self with
  | _ :: _ =>
      _ ← mapM (λ name, statistics_mean (default [] (scores !! name)))
               (criteria self).*1;
      _ ← first_item output;
      Ok ()
  | [] =>
      _ ← first_item output;
      Ok ()
  end.

(** The loop [for future in as_completed(futures)], over the futures in
    completion order. *)
Fixpoint drain (self : t) (completed : list (Res TaskResult))
    (scores : gmap string (list spec_float)) (outputs : list PyVal)
  : Res (gmap string (list spec_float) * list PyVal) :=
  match completed with
  | [] => Ok (scores, outputs)
  | future :: completed' =>
      '(output, result) ← future;
      let scores := extend_scores scores result in
      let outputs := outputs ++ output in
      _ ← set_postfix self scores output;
      drain self completed' scores outputs
  end.

(** [{**(self.default_api_params or {}), **(api_params or {})}], then the
    assignment of ['n']. *)
Definition run_api_params (self : t) (api_params : option (gmap string PyVal))
    (samples_per_datapoint : Z) : gmap string PyVal :=
  let merged := default ∅ api_params ∪ default ∅ (default_api_params self) in
  if decide (1 < samples_per_datapoint)%Z
  then <["n" := VInt samples_per_datapoint]> merged
  else merged.

(** [with ThreadPoolExecutor(max_workers=n_workers) as executor] and the
    submission of one task per datapoint.  The tasks run while the block is
    open, so each sees the flag as the world has it then. *)
Definition submit_all (self : t) (n_workers : Z) (lmp : LMP)
    (api_params : gmap string PyVal) : M (list (Res TaskResult)) := λ w,
  if decide (n_workers ≤ 0)%Z
  then (Raise (ValueError "max_workers must be greater than 0"), w)
  else (Ok ((λ data_point, _process_single self (verbose w) data_point lmp api_params)
              <$> dataset self), w).

Definition run (self : t) (lmp : LMP) (n_workers : Z)
    (api_params : option (gmap string PyVal)) (verbose : bool)
    (samples_per_datapoint : Z) (sched : list nat) : M EvaluationRun.t :=
  let run_api_params := run_api_params self api_params samples_per_datapoint in
  let lmp_to_use := lmp in
  now ← datetime_now;
  evaluation_run ← EvaluationRun_init
    [("lmp", ALmp lmp_to_use); ("inputs", ADataset (dataset self));
     ("api_params", AParams run_api_params); ("start_time", ATime now)];
  original_verbose ← get_verbose;
  _ ← set_verbose verbose;
  try_finally
    (futures ← submit_all self n_workers lmp_to_use run_api_params;
     '(scores, outputs) ← lift (drain self (as_completed sched futures) ∅ []);
     evaluation_run ← store (EvaluationRun.set_outputs outputs evaluation_run);
     evaluation_run ←
       match criteria self with
       | _ :: _ => store (EvaluationRun.set_scores scores evaluation_run)
       | [] => mret evaluation_run
       end;
     now ← datetime_now;
     evaluation_run ← store (EvaluationRun.set_end_time (Some now) evaluation_run);
     mret evaluation_run)
    (set_verbose original_verbose).

End Engine.

End Evaluation.

(** ** Reading an error message *)

(** [needle in hay] on strings. *)
Fixpoint mentions (needle hay : string) : bool :=
  String.prefix needle hay ||
  match hay with
  | EmptyString => false
  | String _ hay' => mentions needle hay'
  end.

(** ** A small evaluation, for concrete runs

    The scenario of the specification: two datapoints with a named input, an
    LMP that returns the name it is given, and the criterion [length]. *)

Module Example.

(** The concrete runs below never pass a string to [float]; their parser of
    float literals accepts nothing. *)
Definition no_literal : string → option spec_float := λ _, None.

(** [lambda name, api_params: name], callable by position or by name. *)
Definition echo : LMP := λ _ args kwargs _,
  match args, kwargs with
  | x :: _, _ => Ok x
  | [], (_, x) :: _ => Ok x
  | [], [] => Ok VNone
  end.

(** An LMP that returns its output in a tuple: [lambda name, api_params: (name,)]. *)
Definition echo_tuple : LMP := λ v args kwargs api_params,
  x ← echo v args kwargs api_params; Ok (VTuple [x]).

(** [lambda dp, out: len(out)] *)
Definition length_of : Criterion := λ _ out,
  match out with
  | VStr s => Ok (VInt (Z.of_nat (String.length s)))
  | VList l | VTuple l => Ok (VInt (Z.of_nat (length l)))
  | VDict d => Ok (VInt (Z.of_nat (length d)))
  | _ => Raise (TypeError ("object of type '" +:+ type_name out +:+ "' has no len()"))
  end.

(** [lambda dp, out: None] *)
Definition no_score : Criterion := λ _ _, Ok VNone.

Definition ann : Datapoint := {[ "input" := VDict [("name", VStr "Ann")] ]}.
Definition bo : Datapoint := {[ "input" := VDict [("name", VStr "Bo")] ]}.
(** [{"input": ("Ann",)}] and [{"input": 7}] *)
Definition ann_tuple : Datapoint := {[ "input" := VTuple [VStr "Ann"] ]}.
Definition seven : Datapoint := {[ "input" := VInt 7 ]}.

Definition greet : Evaluation.t :=
  Evaluation.mk "greet" [ann; bo] [("length", length_of)] None.

Definition greet_unscored : Evaluation.t :=
  Evaluation.mk "greet" [ann; bo] [] None.


Definition greet_seven : Evaluation.t :=
  Evaluation.mk "greet" [ann; seven] [("length", length_of)] None.

(** [lambda: 0], and a named function. *)
Definition a_lambda : CritObj := Callable "function" (Some "<lambda>") no_score.
Definition a_def : CritObj := Callable "function" (Some "length") length_of.

(** A second function named [length], and a function named [none]. *)
Definition a_shadow : CritObj := Callable "function" (Some "length") no_score.
Definition b_def : CritObj := Callable "function" (Some "none") no_score.

(** [{"name": "Ann"}], a datapoint without the key ['input'], and
    [{"input": {"api_params": 1}}]. *)
Definition no_input : Datapoint := {[ "name" := VStr "Ann" ]}.
Definition clash : Datapoint := {[ "input" := VDict [("api_params", VInt 1)] ]}.

Definition greet_no_input : Evaluation.t :=
  Evaluation.mk "greet" [ann; no_input] [("length", length_of)] None.

Definition greet_clash : Evaluation.t :=
  Evaluation.mk "greet" [ann; clash] [("length", length_of)] None.

Definition greet_two : Evaluation.t :=
  Evaluation.mk "greet" [ann; bo] [("length", length_of); ("none", no_score)] None.

Definition greet_empty : Evaluation.t :=
  Evaluation.mk "greet" [] [("length", length_of)] None.

(** [lambda name, api_params: []], an LMP without outputs. *)
Definition silent : LMP := λ _ _ _ _, Ok (VList []).

(** An LMP that gives [[name, name]] for Ann and the bare name otherwise. *)
Definition ann_twice : LMP := λ v args kwargs api_params,
  x ← echo v args kwargs api_params;
  match x with
  | VStr s => if decide (s = "Ann") then Ok (VList [x; x]) else Ok x
  | _ => Ok x
  end.

(** An LMP that reports the parameters it is called with:
    [lambda name, api_params: (api_params.get("temperature"),
    api_params.get("top_p"), api_params.get("n"))]. *)
Definition report : LMP := λ _ _ _ api_params,
  Ok (VTuple [default VNone (api_params !! "temperature");
              default VNone (api_params !! "top_p");
              default VNone (api_params !! "n")]).

(** An evaluation without criteria that has default parameters. *)
Definition greet_defaults : Evaluation.t :=
  Evaluation.mk "greet" [ann; bo] []
    (Some {[ "temperature" := VInt 1; "top_p" := VInt 1 ]}).

(** A world whose clock ticks: flag off, no reading taken yet. *)
Definition world0 : World := mkWorld false (λ i, 100 + Z.of_nat i)%Z 0 None.


End Example.

(** * Properties *)

Section Properties.

Import Evaluation.

Variable float_of_str : string → option spec_float.

Abbreviation run := (run float_of_str).
Abbreviation _process_single := (_process_single float_of_str).
Abbreviation score := (score float_of_str).

(** ** Results and lists *)

Lemma mapM_cons {A B} (f : A → Res B) (x : A) (l : list A) :
  mapM f (x :: l) =
    match f x with
    | Ok y => match mapM f l with Ok k => Ok (y :: k) | Raise e => Raise e end
    | Raise e => Raise e
    end.
Proof. reflexivity. Qed.

Lemma mapM_Ok_Forall2 {A B} (f : A → Res B) (l : list A) (k : list B) :
  mapM f l = Ok k ↔ Forall2 (λ x y, f x = Ok y) l k.
Proof.
  revert k. induction l as [|x l IH]; intros k.
  - split.
    + intros [= <-]. constructor.
    + intros H. inversion H. reflexivity.
  - rewrite mapM_cons. split.
    + destruct (f x) as [y|e] eqn:Hx; [|discriminate].
      destruct (mapM f l) as [k'|e] eqn:Hl; [|discriminate].
      intros [= <-]. constructor; [assumption|]. by apply IH.
    + intros H. inversion H as [|? y ? k' Hx Hl]; subst.
      apply IH in Hl. by rewrite Hx, Hl.
Qed.

Lemma mapM_Ok_fmap {A B} (f : A → Res B) (l : list A) (k : list B) :
  mapM f l = Ok k → Ok <$> k = f <$> l.
Proof.
  rewrite mapM_Ok_Forall2. induction 1; [reflexivity|].
  rewrite !fmap_cons. congruence.
Qed.

Lemma mapM_Ok_length {A B} (f : A → Res B) (l : list A) (k : list B) :
  mapM f l = Ok k → length k = length l.
Proof. rewrite mapM_Ok_Forall2. intros H. symmetry. eapply Forall2_length, H. Qed.


(** ** The order of completion is a permutation of the futures *)

Lemma completion_order_Permutation {A} (sched : list nat) (fs : list A) n :
  length fs = n → completion_order sched fs n ≡ₚ fs.
Proof.
  revert sched fs. induction n as [|n IH]; intros sched fs Hlen; simpl.
  - by destruct fs.
  - destruct (fs !! (hd 0 sched `mod` length fs)) as [f|] eqn:Hk.
    + rewrite IH.
      * symmetry. by apply delete_Permutation.
      * rewrite length_delete by eauto. lia.
    + apply lookup_ge_None in Hk.
      pose proof (Nat.mod_upper_bound (hd 0 sched) (length fs)). lia.
Qed.

Lemma as_completed_Permutation {A} (sched : list nat) (fs : list A) :
  as_completed sched fs ≡ₚ fs.
Proof. by apply completion_order_Permutation. Qed.

Lemma delete_fmap {A B} (g : A → B) (k : nat) (fs : list A) :
  delete k (g <$> fs) = g <$> delete k fs.
Proof.
  revert k. induction fs as [|x fs IH]; intros [|k]; simpl; try done.
  by rewrite IH.
Qed.

Lemma completion_order_fmap {A B} (g : A → B) (sched : list nat) (fs : list A) n :
  completion_order sched (g <$> fs) n = g <$> completion_order sched fs n.
Proof.
  revert sched fs. induction n as [|n IH]; intros sched fs; simpl; [done|].
  rewrite length_fmap, list_lookup_fmap.
  destruct (fs !! _) as [f|]; simpl; [|done].
  by rewrite delete_fmap, IH.
Qed.

Lemma as_completed_fmap {A B} (g : A → B) (sched : list nat) (fs : list A) :
  as_completed sched (g <$> fs) = g <$> as_completed sched fs.
Proof. unfold as_completed. by rewrite length_fmap, completion_order_fmap. Qed.

(** ** What [run] computes *)

(** The constructor call that [run] makes: the keyword [inputs] is dropped and
    [dataset] keeps its default. *)
Lemma EvaluationRun_init_run lmp (d : list Datapoint) (p : gmap string PyVal) now w :
  EvaluationRun_init
    [("lmp", ALmp lmp); ("inputs", ADataset d);
     ("api_params", AParams p); ("start_time", ATime now)] w =
  let r := EvaluationRun.mk ∅ [] (Some lmp) [] p now None in
  (Ok r, mkWorld (verbose w) (clock w) (reads w) (Some r)).
Proof. reflexivity. Qed.

(** The monadic text of [run], evaluated: the record as constructed, the
    outcome of the loop, and the world in each case. *)
Lemma run_eq self lmp n_workers api v samples sched w :
  let p := run_api_params self api samples in
  let r0 := EvaluationRun.mk ∅ [] (Some lmp) [] p (clock w (reads w)) None in
  let w1 := mkWorld (verbose w) (clock w) (S (reads w)) (Some r0) in
  run self lmp n_workers api v samples sched w =
    if decide (n_workers ≤ 0)%Z
    then (Raise (ValueError "max_workers must be greater than 0"), w1)
    else
      match drain self (as_completed sched
              ((λ dp, _process_single self v dp lmp p) <$> dataset self)) ∅ [] with
      | Raise e => (Raise e, w1)
      | Ok (scores, outputs) =>
          let r := EvaluationRun.mk
                     (match criteria self with [] => ∅ | _ :: _ => scores end)
                     [] (Some lmp) outputs p (clock w (reads w))
                     (Some (clock w (S (reads w)))) in
          (Ok r, mkWorld (verbose w) (clock w) (S (S (reads w))) (Some r))
      end.
Proof.
  intros p r0 w1. unfold Evaluation.run. fold p.
  unfold mbind at 1, M_bind at 1, datetime_now at 1.
  unfold mbind at 1, M_bind at 1. rewrite EvaluationRun_init_run.
  cbv zeta. unfold mbind at 1, M_bind at 1, get_verbose.
  unfold mbind at 1, M_bind at 1, set_verbose at 1.
  unfold try_finally, submit_all, mbind, M_bind, lift, set_verbose, store, mret, M_ret.
  cbn [verbose clock reads record].
  destruct (decide (n_workers ≤ 0)%Z); [reflexivity|].
  destruct (drain _ _ _ _) as [[scores outputs]|e]; [|reflexivity].
  destruct (criteria self); reflexivity.
Qed.



(** The scenario of the specification, in both orders of completion, and an
    LMP without outputs. *)
Example run_greet_in_order :
  (Evaluation.run Example.no_literal Example.greet Example.echo 1 None false 1 []
     Example.world0).1 =
  Ok (EvaluationRun.mk
        {[ "length" := [S754_finite false 6755399441055744 (-51);
                        S754_finite false 4503599627370496 (-51)] ]}
        [] (Some Example.echo) [VStr "Ann"; VStr "Bo"] ∅ 100 (Some 101)%Z).
Proof. reflexivity. Qed.

Example run_greet_reversed :
  (Evaluation.run Example.no_literal Example.greet Example.echo 2 None false 1 [1]
     Example.world0).1 =
  Ok (EvaluationRun.mk
        {[ "length" := [S754_finite false 4503599627370496 (-51);
                        S754_finite false 6755399441055744 (-51)] ]}
        [] (Some Example.echo) [VStr "Bo"; VStr "Ann"] ∅ 100 (Some 101)%Z).
Proof. reflexivity. Qed.

Example run_without_outputs :
  (Evaluation.run Example.no_literal Example.greet (λ _ _ _ _, Ok (VList [])) 1 None
     false 1 [] Example.world0).1 =
  Raise (StatisticsError "mean requires at least one data point").
Proof. reflexivity. Qed.

Example run_without_workers :
  (Evaluation.run Example.no_literal Example.greet Example.echo 0 None true 1 []
     Example.world0).1 =
  Raise (ValueError "max_workers must be greater than 0").
Proof. reflexivity. Qed.

Example float_of_int_examples :
  float_of_int 3 = Ok (S754_finite false 6755399441055744 (-51)) ∧
  float_of_int 0 = Ok (S754_zero false) ∧
  float_of_int (2 ^ 53 + 1) = Ok (S754_finite false 4503599627370496 1) ∧
  float_of_int (2 ^ 1024) = Raise (OverflowError "int too large to convert to float").
Proof. repeat split. Qed.

(** ** One task *)

(** What a task that returns has computed: the normalized outputs of the
    call, and for each criterion, in the order of [criteria], the floats of
    its values on those outputs. *)
Lemma process_single_Ok self v dp lmp p outs sc :
  _process_single self v dp lmp p = Ok (outs, sc) →
  (∃ x, call_lmp v dp lmp p = Ok x ∧ outs = normalize_output x) ∧
  outs = lmp_outputs v dp lmp p ∧
  Forall2 (λ c r, r.1 = c.1 ∧ mapM (score c.2 dp) outs = Ok r.2) (criteria self) sc.
Proof.
  unfold Evaluation._process_single, lmp_outputs.
  destruct (call_lmp v dp lmp p) as [x|e]; [|discriminate]. cbn.
  destruct (criteria self) as [|c cs] eqn:Hc.
  - intros [= <- <-]. split; [eauto|]. split; [done|constructor].
  - destruct (mapM _ (c :: cs)) as [k|e] eqn:Hm; [|discriminate].
    intros [= <- <-]. split; [eauto|]. split; [done|].
    apply mapM_Ok_Forall2 in Hm.
    eapply Forall2_impl; [exact Hm|].
    intros [name crit] [name' l]; cbn.
    destruct (mapM _ (normalize_output x)) as [l'|e] eqn:Hl; [|discriminate].
    intros [= <- <-]. done.
Qed.

Lemma process_single_names self v dp lmp p outs sc :
  _process_single self v dp lmp p = Ok (outs, sc) → sc.*1 = (criteria self).*1.
Proof.
  intros H. apply process_single_Ok in H as (_ & _ & H).
  induction H as [|c r cs rs [Hn _] _ IH]; [done|]. rewrite !fmap_cons. congruence.
Qed.

Lemma process_single_scores self v dp lmp p outs sc name crit :
  _process_single self v dp lmp p = Ok (outs, sc) →
  (name, crit) ∈ criteria self →
  ∃ l, (name, l) ∈ sc ∧ Ok <$> l = score crit dp <$> outs ∧ length l = length outs.
Proof.
  intros H Hin. apply process_single_Ok in H as (_ & _ & H).
  apply list_elem_of_lookup in Hin as [i Hi].
  destruct (Forall2_lookup_l _ _ _ _ _ H Hi) as ([n l] & Hl & Hn & Hm); cbn in *.
  subst n. exists l. split; [by eapply list_elem_of_lookup_2|].
  split; [by apply mapM_Ok_fmap | by eapply mapM_Ok_length].
Qed.

(** A task whose LMP call raises, raises that error. *)
Lemma process_single_call_Raise self v dp lmp p e :
  call_lmp v dp lmp p = Raise e → _process_single self v dp lmp p = Raise e.
Proof. unfold Evaluation._process_single. by intros ->. Qed.

(** ** The accumulators *)

Lemma extend_scores_cons (s : gmap string (list spec_float)) name value result :
  extend_scores s ((name, value) :: result) =
  extend_scores (<[name := default [] (s !! name) ++ value]> s) result.
Proof. reflexivity. Qed.

Lemma extend_scores_notin (s : gmap string (list spec_float)) result name :
  name ∉ result.*1 → extend_scores s result !! name = s !! name.
Proof.
  revert s. induction result as [|[n v] result IH]; intros s Hn; [done|].
  rewrite fmap_cons, not_elem_of_cons in Hn. destruct Hn as [Hne Hn].
  rewrite extend_scores_cons, IH by done. cbn in Hne. by rewrite lookup_insert_ne.
Qed.

(** With distinct names, each [scores[name]] is extended by the list that the
    result has under that name. *)
Lemma extend_scores_lookup (s : gmap string (list spec_float)) result name l :
  NoDup result.*1 → (name, l) ∈ result →
  extend_scores s result !! name = Some (default [] (s !! name) ++ l).
Proof.
  revert s. induction result as [|[n v] result IH]; intros s Hnd Hin.
  - by apply elem_of_nil in Hin.
  - rewrite fmap_cons, NoDup_cons in Hnd. destruct Hnd as [Hn Hnd].
    rewrite extend_scores_cons. apply elem_of_cons in Hin as [[= <- <-]|Hin].
    + rewrite extend_scores_notin by done. by rewrite lookup_insert_eq.
    + rewrite IH by done. rewrite lookup_insert_ne; [done|].
      intros ->. apply Hn. cbn. change name with ((name, l).1).
      by apply list_elem_of_fmap_2.
Qed.

(** A name under which the result has only non-empty lists has a non-empty
    list afterwards, distinct names or not. *)
Lemma extend_scores_nonempty (s : gmap string (list spec_float)) result name :
  Forall (λ r, r.2 ≠ []) result →
  name ∈ result.*1 ∨ default [] (s !! name) ≠ [] →
  default [] (extend_scores s result !! name) ≠ [].
Proof.
  revert s. induction result as [|[n v] result IH]; intros s Hall Hor.
  - destruct Hor as [Hin|H]; [by apply elem_of_nil in Hin | done].
  - apply Forall_cons in Hall as [Hv Hall]. cbn in Hv.
    rewrite extend_scores_cons. apply IH; [done|].
    destruct (decide (n = name)) as [->|Hne].
    + right. rewrite lookup_insert_eq. cbn. by destruct (default [] (s !! name)), v.
    + destruct Hor as [Hin|H].
      * left. rewrite fmap_cons in Hin. apply elem_of_cons in Hin as [Heq|Hin]; [|done].
        cbn in Heq. congruence.
      * right. by rewrite lookup_insert_ne.
Qed.

(** ** The loop over completed futures *)

Lemma drain_cons self future completed s o :
  drain self (future :: completed) s o =
    match future with
    | Raise e => Raise e
    | Ok (output, result) =>
        match set_postfix self (extend_scores s result) output with
        | Raise e => Raise e
        | Ok _ => drain self completed (extend_scores s result) (o ++ output)
        end
    end.
Proof. destruct future as [[output result]|e]; reflexivity. Qed.

(** The progress bar raises only for a future without outputs, or when some
    criterion has no score yet. *)
Lemma set_postfix_Ok self s output :
  output ≠ [] →
  Forall (λ name, default [] (s !! name) ≠ []) (criteria self).*1 →
  set_postfix self s output = Ok ().
Proof.
  intros Ho Hs. unfold set_postfix.
  assert (first_item output ≫= (λ _, Ok ()) = Ok ()) as Hfirst by by destruct output.
  destruct (criteria self) as [|c cs]; [done|].
  destruct (mapM _ (c :: cs).*1) as [k|e] eqn:Hm; [done|]. exfalso.
  assert (∃ k, mapM (λ name, statistics_mean (default [] (s !! name))) (c :: cs).*1 = Ok k)
    as [k Hk]; [|congruence].
  clear Hm. induction Hs as [|n ns Hn _ [k IH]]; [by eexists|].
  rewrite mapM_cons, IH. destruct (default [] (s !! n)); [done|]. by eexists.
Qed.

Lemma set_postfix_Raise self s output e :
  set_postfix self s output = Raise e →
  e = IndexError "list index out of range" ∨
  e = StatisticsError "mean requires at least one data point".
Proof.
  unfold set_postfix. destruct (criteria self) as [|c cs].
  - destruct output; [|discriminate]. intros [= <-]. by left.
  - generalize ((c :: cs).*1). intros names.
    destruct (mapM _ names) as [k|e'] eqn:Hm.
    + destruct output; [|discriminate]. intros [= <-]. by left.
    + intros [= <-]. right. clear -Hm.
      induction names as [|n names IH]; [discriminate|].
      rewrite mapM_cons in Hm. destruct (default [] (s !! n)); cbn in Hm.
      * by injection Hm as <-.
      * destruct (mapM _ names); [discriminate|]. injection Hm as <-. by apply IH.
Qed.

(** A loop that ends normally has drained only futures that returned, each
    with at least one output; its accumulators are theirs, in that order. *)
Lemma drain_Ok self completed s o s' o' :
  drain self completed s o = Ok (s', o') →
  ∃ results,
    completed = Ok <$> results ∧
    o' = o ++ concat results.*1 ∧
    s' = foldl extend_scores s results.*2 ∧
    Forall (λ r, r.1 ≠ []) results.
Proof.
  revert s o. induction completed as [|future completed IH]; intros s o.
  - intros [= <- <-]. exists []. by rewrite app_nil_r.
  - rewrite drain_cons. destruct future as [[output result]|e]; [|discriminate].
    destruct (set_postfix _ _ _) as [[]|e] eqn:Hp; [|discriminate].
    intros (results & -> & -> & -> & Hall)%IH.
    exists ((output, result) :: results). split; [done|].
    split; [by rewrite fmap_cons, concat_cons, app_assoc|]. split; [done|].
    constructor; [|done]. cbn. intros ->.
    unfold set_postfix in Hp. destruct (criteria self); [discriminate|].
    by destruct (mapM _ _).
Qed.

(** A failed future makes the loop raise, whatever the order. *)
Lemma drain_Raise self completed s o e :
  Raise e ∈ completed → ∃ e', drain self completed s o = Raise e'.
Proof.
  revert s o. induction completed as [|future completed IH]; intros s o Hin.
  - by apply elem_of_nil in Hin.
  - rewrite drain_cons. destruct future as [[output result]|e0]; [|by eexists].
    destruct (set_postfix _ _ _) as [[]|e1]; [|by eexists].
    apply elem_of_cons in Hin as [[=]|Hin]. by apply IH.
Qed.

(** The error of a loop that raises is a future's own, or the progress
    bar's. *)
Lemma drain_Raise_inv self completed s o e :
  drain self completed s o = Raise e →
  Raise e ∈ completed ∨
  ∃ output result, Ok (output, result) ∈ completed ∧
    ∃ s1, set_postfix self s1 output = Raise e.
Proof.
  revert s o. induction completed as [|future completed IH]; intros s o; [discriminate|].
  rewrite drain_cons. destruct future as [[output result]|e0].
  - destruct (set_postfix _ _ _) as [[]|e1] eqn:Hp.
    + intros [H|(out & res & Hin & H)]%IH.
      * left. by right.
      * right. exists out, res. split; [by right | done].
    + intros [= <-]. right. exists output, result. split; [by left | eauto].
  - intros [= <-]. left. by left.
Qed.

(** ** One run *)

Lemma concat_fmap_Permutation {A B} (f : A → list B) (l1 l2 : list A) :
  l1 ≡ₚ l2 → concat (f <$> l1) ≡ₚ concat (f <$> l2).
Proof.
  induction 1 as [|x l1 l2 _ IH|x y l|l1 l2 l3 _ IH1 _ IH2]; csimpl.
  - done.
  - by rewrite IH.
  - by rewrite !app_assoc, (Permutation_app_comm (f y)).
  - by rewrite IH1.
Qed.

Lemma fmap_eq_Forall2 {A B C} (f : A → C) (g : B → C) (l : list A) (k : list B) :
  f <$> l = g <$> k → Forall2 (λ x y, f x = g y) l k.
Proof.
  revert k. induction l as [|x l IH]; intros [|y k]; try done.
  rewrite !fmap_cons. intros [= Hxy Hlk]. constructor; [done | by apply IH].
Qed.

(** A run that returns has drained one returned task per datapoint, in
    completion order; the record holds their outputs and, when there are
    criteria, the accumulated scores. *)
Lemma run_Ok self lmp n_workers api v samples sched w r w' :
  run self lmp n_workers api v samples sched w = (Ok r, w') →
  let p := run_api_params self api samples in
  ∃ results,
    Forall2 (λ dp res, _process_single self v dp lmp p = Ok res)
            (as_completed sched (dataset self)) results ∧
    Forall (λ res, res.1 ≠ []) results ∧
    r = EvaluationRun.mk
          (match criteria self with
           | [] => ∅
           | _ :: _ => foldl extend_scores ∅ results.*2
           end)
          [] (Some lmp) (concat results.*1) p
          (clock w (reads w)) (Some (clock w (S (reads w)))) ∧
    w' = mkWorld (verbose w) (clock w) (S (S (reads w))) (Some r).
Proof.
  rewrite run_eq. intros H p. fold p in H.
  destruct (decide (n_workers ≤ 0)%Z); [discriminate|].
  destruct (drain _ _ _ _) as [[scores outputs]|e] eqn:Hd; [|discriminate].
  apply drain_Ok in Hd as (results & Hc & -> & -> & Hne).
  injection H as <- <-. exists results. split; [|done].
  rewrite as_completed_fmap in Hc. by apply fmap_eq_Forall2 in Hc.
Qed.

(** The outputs of the drained tasks are those of the LMP calls. *)
Lemma results_outputs self v lmp p (ds : list Datapoint) (results : list TaskResult) :
  Forall2 (λ dp res, _process_single self v dp lmp p = Ok res) ds results →
  results.*1 = (λ dp, lmp_outputs v dp lmp p) <$> ds.
Proof.
  induction 1 as [|dp [outs sc] ds results H _ IH]; [done|].
  rewrite !fmap_cons, IH. f_equal. by apply process_single_Ok in H as (_ & -> & _).
Qed.

(** With distinct criterion names, the list accumulated under a name is the
    concatenation, over the drained tasks, of that criterion's scores. *)
Lemma results_scores self v lmp p name crit (ds : list Datapoint)
    (results : list TaskResult) (s : gmap string (list spec_float)) :
  NoDup (criteria self).*1 → (name, crit) ∈ criteria self →
  Forall2 (λ dp res, _process_single self v dp lmp p = Ok res) ds results →
  Ok <$> default [] (foldl extend_scores s results.*2 !! name) =
  (Ok <$> default [] (s !! name)) ++
  concat ((λ dp, score crit dp <$> lmp_outputs v dp lmp p) <$> ds).
Proof.
  intros Hnd Hin H. revert s.
  induction H as [|dp [outs sc] ds results H _ IH]; intros s.
  - by rewrite app_nil_r.
  - rewrite !fmap_cons, concat_cons. cbn [foldl snd]. rewrite IH, app_assoc. f_equal.
    destruct (process_single_scores _ _ _ _ _ _ _ _ _ H Hin) as (l & Hl & Hscore & _).
    rewrite (extend_scores_lookup _ _ _ l); [| |done].
    + cbn. rewrite fmap_app, Hscore.
      by apply process_single_Ok in H as (_ & -> & _).
    + by rewrite (process_single_names _ _ _ _ _ _ _ H).
Qed.

(** ** The claims *)

(** C1 (the code does not do this).  The record of a run is claimed to hold
    the evaluation's dataset, and its [inputs] the input of each datapoint.
    [run] passes the dataset to the constructor under the keyword [inputs],
    which names no field, so the record's [dataset] keeps its default: on the
    two-datapoint evaluation [greet] the run returns a record whose
    [dataset] and [inputs] are both empty. *)
Example C1_dataset_dropped :
  ∃ r w', Evaluation.run Example.no_literal Example.greet Example.echo 1 None false 1 []
            Example.world0 = (Ok r, w') ∧
          EvaluationRun.dataset r = [] ∧
          EvaluationRun.inputs r = Ok [] ∧
          EvaluationRun.outputs r = [VStr "Ann"; VStr "Bo"] ∧
          dataset Example.greet = [Example.ann; Example.bo].
Proof. eexists _, _. split; [reflexivity|]. repeat split. Qed.

(** The same for every run that returns. *)
Lemma run_Ok_dataset self lmp n_workers api v samples sched w r w' :
  run self lmp n_workers api v samples sched w = (Ok r, w') →
  EvaluationRun.dataset r = [] ∧ EvaluationRun.inputs r = Ok [].
Proof. intros (results & _ & _ & -> & _)%run_Ok. done. Qed.

(** What a call of the LMP that returned was: the input of the datapoint
    spread by position or by name, next to the parameters. *)
Lemma call_lmp_Ok v (dp : Datapoint) lmp p x :
  call_lmp v dp lmp p = Ok x →
  match dp !! "input" with
  | Some (VList args) => lmp v args [] p = Ok x
  | Some (VDict kwargs) => lmp v [] kwargs p = Ok x
  | _ => False
  end.
Proof.
  unfold call_lmp. destruct (dp !! "input") as [[]|]; try done.
  by case_bool_decide.
Qed.

(** The tasks that a loop has drained, as rows: the datapoint, what its LMP
    call returned, and its scores under one criterion. *)
Lemma tasks_rows self v lmp p name crit (ds : list Datapoint)
    (results : list TaskResult) (s : gmap string (list spec_float)) :
  NoDup (criteria self).*1 → (name, crit) ∈ criteria self →
  Forall2 (λ dp res, _process_single self v dp lmp p = Ok res) ds results →
  ∃ rows : list (Datapoint * PyVal * list spec_float),
    rows.*1.*1 = ds ∧
    Forall (λ '(dp, x, fs),
              match dp !! "input" with
              | Some (VList args) => lmp v args [] p = Ok x
              | Some (VDict kwargs) => lmp v [] kwargs p = Ok x
              | _ => False
              end ∧
              Forall2 (λ o f, ∃ y, crit dp o = Ok y ∧ py_float float_of_str y = Ok f)
                      (match x with VList l => l | _ => [x] end) fs) rows ∧
    concat results.*1 =
      concat ((λ '(dp, x, fs), match x with VList l => l | _ => [x] end) <$> rows) ∧
    default [] (foldl extend_scores s results.*2 !! name) =
      default [] (s !! name) ++ concat rows.*2.
Proof.
  intros Hnd Hin H. revert s.
  induction H as [|dp [outs sc] ds results H _ IH]; intros s.
  - exists []. cbn. by rewrite app_nil_r.
  - pose proof (process_single_names _ _ _ _ _ _ _ H) as Hnames.
    destruct (process_single_Ok _ _ _ _ _ _ _ H) as ((x & Hcall & Hx) & _ & Hsc).
    apply list_elem_of_lookup in Hin as [i Hi].
    destruct (Forall2_lookup_l _ _ _ _ _ Hsc Hi) as ([n l] & Hl & Hn & Hm).
    cbn in Hn, Hm. subst n. apply list_elem_of_lookup_2 in Hl.
    destruct (IH (extend_scores s sc)) as (rows & Hds & Hrows & Hout & Hs).
    exists ((dp, x, l) :: rows). split; [by rewrite !fmap_cons, Hds|].
    split; [|split].
    + constructor; [|done]. split; [by apply call_lmp_Ok|].
      assert (normalize_output x = match x with VList l => l | _ => [x] end) as <-
        by by destruct x.
      rewrite <- Hx. apply mapM_Ok_Forall2 in Hm.
      eapply Forall2_impl; [exact Hm|]. intros o f. unfold Evaluation.score.
      destruct (crit dp o) as [y|e]; [|done]. cbn. eauto.
    + rewrite !fmap_cons, !concat_cons, Hout. f_equal. cbn. rewrite Hx. by destruct x.
    + rewrite !fmap_cons. cbn [foldl snd]. rewrite Hs, concat_cons, app_assoc. f_equal.
      rewrite (extend_scores_lookup _ _ _ l); [done | by rewrite Hnames | done].
Qed.

(** C2.  On a run that returns, for every criterion [name] (the names of a
    criteria dict are distinct) there is one row per datapoint of the
    dataset, in the order of completion, that holds what the LMP returned
    when called on the datapoint's input with the run's parameters, and one
    float per output of that result, the [float] of the criterion's value on
    the datapoint and the output.  [outputs] is the outputs of the rows and
    [scores[name]] the floats of the rows, in that order: so [scores[name]]
    has the length of [outputs], and as a multiset it is
    [float(criteria[name](dp, out))] over all pairs of a datapoint and one of
    its outputs. *)
Theorem C2_scores_multiset self lmp n_workers api v samples sched w r w' name crit :
  NoDup (criteria self).*1 →
  (name, crit) ∈ criteria self →
  run self lmp n_workers api v samples sched w = (Ok r, w') →
  let p := run_api_params self api samples in
  ∃ rows : list (Datapoint * PyVal * list spec_float),
    rows.*1.*1 ≡ₚ dataset self ∧
    Forall (λ '(dp, x, fs),
              match dp !! "input" with
              | Some (VList args) => lmp v args [] p = Ok x
              | Some (VDict kwargs) => lmp v [] kwargs p = Ok x
              | _ => False
              end ∧
              Forall2 (λ o f, ∃ y, crit dp o = Ok y ∧ py_float float_of_str y = Ok f)
                      (match x with VList l => l | _ => [x] end) fs) rows ∧
    EvaluationRun.outputs r =
      concat ((λ '(dp, x, fs), match x with VList l => l | _ => [x] end) <$> rows) ∧
    EvaluationRun.scores_at r name = concat rows.*2 ∧
    length (EvaluationRun.scores_at r name) = length (EvaluationRun.outputs r).
Proof.
  intros Hnd Hin (results & Htasks & _ & -> & _)%run_Ok p. fold p in Htasks.
  destruct (tasks_rows _ _ _ _ _ _ _ _ ∅ Hnd Hin Htasks) as (rows & Hds & Hrows & Hout & Hs).
  exists rows. unfold EvaluationRun.scores_at.
  cbn [EvaluationRun.scores EvaluationRun.outputs].
  assert (default [] (match criteria self with
                      | [] => ∅
                      | _ :: _ => foldl extend_scores ∅ results.*2
                      end !! name) = concat rows.*2) as Hscores.
  { destruct (criteria self); [by apply elem_of_nil in Hin|].
    by rewrite Hs, lookup_empty. }
  split; [by rewrite Hds, as_completed_Permutation|]. split; [done|].
  split; [done|]. split; [done|].
  rewrite Hscores, Hout. clear -Hrows.
  induction Hrows as [|[[dp x] fs] rows [_ Hfs] _ IH]; [done|].
  rewrite !fmap_cons, !concat_cons, !length_app, IH. cbn.
  by rewrite (Forall2_length _ _ _ Hfs).
Qed.

(** The outputs of a run that returns are those of the LMP, called on the
    input of each datapoint with the parameters of the run. *)
Lemma run_Ok_calls self lmp n_workers api v samples sched w r w' :
  run self lmp n_workers api v samples sched w = (Ok r, w') →
  let p := run_api_params self api samples in
  ∃ rows : list (Datapoint * PyVal),
    rows.*1 = as_completed sched (dataset self) ∧
    Forall (λ '(dp, x),
              match dp !! "input" with
              | Some (VList args) => lmp v args [] p = Ok x
              | Some (VDict kwargs) => lmp v [] kwargs p = Ok x
              | _ => False
              end) rows ∧
    EvaluationRun.outputs r =
      concat ((λ x, match x with VList l => l | _ => [x] end) <$> rows.*2).
Proof.
  intros (results & Htasks & _ & -> & _)%run_Ok p. fold p in Htasks.
  cbn [EvaluationRun.outputs]. clear -Htasks.
  induction Htasks as [|dp [outs sc] ds results H _ (rows & Hds & Hrows & Hout)].
  - by exists [].
  - destruct (process_single_Ok _ _ _ _ _ _ _ H) as ((x & Hcall & Hx) & _ & _).
    exists ((dp, x) :: rows). split; [by rewrite fmap_cons, Hds|].
    split; [constructor; [by apply call_lmp_Ok | done]|].
    rewrite !fmap_cons, !concat_cons, Hout. f_equal. cbn. rewrite Hx. by destruct x.
Qed.

(** C3.  Without criteria, a run that returns has called the LMP on the
    input of every datapoint, with the parameters of the run; its outputs
    are as many as the results of those calls count together, a result that
    is a list counting for its length and any other result for one, and are
    those outputs themselves up to order; and it has no scores. *)
Theorem C3_outputs_without_criteria self lmp n_workers api v samples sched w r w' :
  criteria self = [] →
  run self lmp n_workers api v samples sched w = (Ok r, w') →
  let p := run_api_params self api samples in
  ∃ results : list PyVal,
    Forall2 (λ (dp : Datapoint) x,
               match dp !! "input" with
               | Some (VList args) => lmp v args [] p = Ok x
               | Some (VDict kwargs) => lmp v [] kwargs p = Ok x
               | _ => False
               end) (dataset self) results ∧
    length (EvaluationRun.outputs r) =
      sum_list_with (λ x, match x with VList l => length l | _ => 1 end) results ∧
    EvaluationRun.outputs r ≡ₚ
      concat ((λ x, match x with VList l => l | _ => [x] end) <$> results) ∧
    EvaluationRun.scores r = ∅.
Proof.
  intros Hc Hrun p.
  destruct (run_Ok_calls _ _ _ _ _ _ _ _ _ _ Hrun) as (rows & Hds & Hrows & Hout).
  fold p in Hrows.
  assert (EvaluationRun.scores r = ∅) as Hscores.
  { apply run_Ok in Hrun as (results & _ & _ & -> & _). cbn. by rewrite Hc. }
  assert (rows.*1 ≡ₚ dataset self) as Hperm by (rewrite Hds; apply as_completed_Permutation).
  clear Hds. revert Hout. generalize (EvaluationRun.outputs r). intros outs ->.
  assert (∃ results : list PyVal,
            Forall2 (λ (dp : Datapoint) x,
                       match dp !! "input" with
                       | Some (VList args) => lmp v args [] p = Ok x
                       | Some (VDict kwargs) => lmp v [] kwargs p = Ok x
                       | _ => False
                       end) (dataset self) results ∧
            results ≡ₚ rows.*2) as (results & Hres & Hperm2).
  { symmetry in Hperm. change (rows.*1) with (map fst rows) in Hperm.
    destruct (Permutation_map_inv _ _ Hperm) as (rows' & Heq & Hrows').
    exists rows'.*2. split; [|by rewrite Hrows'].
    rewrite Heq. rewrite Hrows' in Hrows. clear -Hrows.
    induction Hrows as [|[dp x] rows' H _ IH]; constructor; done. }
  exists results. split; [done|]. split; [|split; [|done]].
  - rewrite (sum_list_with_Permutation_proper _ _ _ Hperm2). clear.
    induction (rows.*2) as [|x xs IH]; [done|].
    rewrite fmap_cons, concat_cons, length_app, IH. cbn. by destruct x.
  - by apply concat_fmap_Permutation.
Qed.

(** ** Runs that raise *)

Lemma mapM_Raise_inv {A B} (f : A → Res B) (l : list A) (e : PyErr) :
  mapM f l = Raise e → ∃ x, x ∈ l ∧ f x = Raise e.
Proof.
  induction l as [|x l IH]; [discriminate|]. rewrite mapM_cons.
  destruct (f x) as [y|e'] eqn:Hx.
  - destruct (mapM f l) as [k|e']; [discriminate|]. intros [= <-].
    destruct IH as (x' & Hin & Hx'); [done|]. exists x'. split; [by right | done].
  - intros [= <-]. exists x. split; [by left | done].
Qed.



(** The world after a run that raised: the flag as before, one clock reading
    taken, and the record as constructed, never assigned to. *)
Lemma run_Raise_world self lmp n_workers api v samples sched w e w' :
  run self lmp n_workers api v samples sched w = (Raise e, w') →
  w' = mkWorld (verbose w) (clock w) (S (reads w))
         (Some (EvaluationRun.mk ∅ [] (Some lmp) []
                  (run_api_params self api samples) (clock w (reads w)) None)).
Proof.
  rewrite run_eq. destruct (decide (n_workers ≤ 0)%Z); [by intros [= _ <-]|].
  destruct (drain _ _ _ _) as [[scores outputs]|e']; [discriminate|].
  by intros [= _ <-].
Qed.

(** One failed task makes the run raise, in every order of completion. *)
Lemma run_Raise self lmp n_workers api v samples sched w dp e0 :
  dp ∈ dataset self →
  _process_single self v dp lmp (run_api_params self api samples) = Raise e0 →
  ∃ e w', run self lmp n_workers api v samples sched w = (Raise e, w').
Proof.
  intros Hin Hdp. rewrite run_eq.
  destruct (decide (n_workers ≤ 0)%Z); [by eexists _, _|].
  edestruct (drain_Raise self) as [e He]; [|rewrite He; by eexists _, _].
  rewrite as_completed_Permutation, <- Hdp.
  by apply (list_elem_of_fmap_2 (λ dp, _process_single self v dp lmp _)).
Qed.

(** The error of the loop over tasks of the dataset is the error of one of
    them, or the progress bar's for one that returned no output. *)
Lemma drain_tasks_Raise_inv self v lmp p (completed : list (Res TaskResult)) s o e :
  (∀ res, res ∈ completed →
     ∃ dp, dp ∈ dataset self ∧ _process_single self v dp lmp p = res) →
  drain self completed s o = Raise e →
  (∃ dp, dp ∈ dataset self ∧ _process_single self v dp lmp p = Raise e) ∨
  (∃ dp sc, dp ∈ dataset self ∧ _process_single self v dp lmp p = Ok ([], sc) ∧
            (e = IndexError "list index out of range" ∨
             e = StatisticsError "mean requires at least one data point")).
Proof.
  revert s o. induction completed as [|future completed IH]; intros s o Hfrom;
    [discriminate|].
  rewrite drain_cons.
  destruct (Hfrom future) as (dp & Hdp & Htask); [by left|].
  assert (∀ res, res ∈ completed →
            ∃ dp, dp ∈ dataset self ∧ _process_single self v dp lmp p = res) as Hfrom'.
  { intros res Hres. apply Hfrom. by right. }
  destruct future as [[output result]|e0].
  - destruct (set_postfix _ _ _) as [[]|e1] eqn:Hp; [by apply IH|].
    intros [= <-]. right.
    destruct output as [|o1 output].
    + exists dp, result. split; [done|]. split; [done|]. by eapply set_postfix_Raise.
    + exfalso. rewrite set_postfix_Ok in Hp; [done|done|].
      apply Forall_forall. intros name Hname.
      apply extend_scores_nonempty.
      * apply Forall_forall. intros [n l] Hnl. cbn.
        apply process_single_Ok in Htask as (_ & _ & Hsc).
        apply list_elem_of_lookup in Hnl as [i Hi].
        destruct (Forall2_lookup_r _ _ _ _ _ Hsc Hi) as (c & _ & _ & Hm).
        apply mapM_Ok_length in Hm. cbn in Hm. by destruct l.
      * left. by rewrite (process_single_names _ _ _ _ _ _ _ Htask).
  - intros [= <-]. left. eauto.
Qed.

(** The error of a run is the pool's refusal of [n_workers], the error of
    one of the tasks, or the progress bar's for a task without outputs. *)
Lemma run_Raise_inv self lmp n_workers api v samples sched w e w' :
  run self lmp n_workers api v samples sched w = (Raise e, w') →
  let p := run_api_params self api samples in
  (n_workers ≤ 0)%Z ∨
  (∃ dp, dp ∈ dataset self ∧ _process_single self v dp lmp p = Raise e) ∨
  (∃ dp sc, dp ∈ dataset self ∧ _process_single self v dp lmp p = Ok ([], sc) ∧
            (e = IndexError "list index out of range" ∨
             e = StatisticsError "mean requires at least one data point")).
Proof.
  rewrite run_eq. intros H p. fold p in H.
  destruct (decide (n_workers ≤ 0)%Z); [by left|]. right.
  destruct (drain _ _ _ _) as [[scores outputs]|e'] eqn:Hd; [discriminate|].
  injection H as <- _. eapply drain_tasks_Raise_inv; [|exact Hd].
  intros res Hres. rewrite as_completed_Permutation in Hres.
  apply list_elem_of_fmap in Hres as (dp & -> & Hdp). eauto.
Qed.

(** C4, as stated, fails: a tuple is a sequence, and a datapoint whose input
    is the tuple [("Ann",)] is not spread as positional arguments.  The call
    is refused with the invalid-input error and the LMP is never called. *)
Example C4_tuple_not_spread :
  Example.ann_tuple !! "input" = Some (VTuple [VStr "Ann"]) ∧
  is_sequence (VTuple [VStr "Ann"]) = true ∧
  call_lmp false Example.ann_tuple Example.echo ∅ =
    Raise (ValueError "Invalid input type: <class 'tuple'>") ∧
  call_lmp false Example.ann_tuple Example.echo ∅ ≠
    Example.echo false [VStr "Ann"] [] ∅.
Proof. repeat split. discriminate. Qed.

(** A datapoint whose LMP call is refused for its input makes its task, and
    any run over it, raise. *)
Lemma invalid_input_aborts self (dp : Datapoint) e0 :
  (∀ v lmp p, call_lmp v dp lmp p = Raise e0) →
  (∀ v lmp p, _process_single self v dp lmp p = Raise e0) ∧
  (dp ∈ dataset self →
   ∀ lmp n_workers api v samples sched w,
   ∃ e w' r0, run self lmp n_workers api v samples sched w = (Raise e, w') ∧
              record w' = Some r0 ∧
              EvaluationRun.outputs r0 = [] ∧
              EvaluationRun.end_time r0 = None).
Proof.
  intros Hcall. split.
  - intros v lmp p. apply process_single_call_Raise, Hcall.
  - intros Hin lmp n_workers api v samples sched w.
    destruct (run_Raise self lmp n_workers api v samples sched w dp e0 Hin)
      as (e & w' & Hrun); [apply process_single_call_Raise, Hcall|].
    exists e, w'. eexists. split; [exact Hrun|].
    by rewrite (run_Raise_world _ _ _ _ _ _ _ _ _ _ Hrun).
Qed.

(** C4, amended.  The Datapoint Processor spreads an input that is a [list]
    as positional arguments and an input that is a [dict] as named arguments
    (next to [api_params], so the dict must not have that key itself).  For an
    input of any other type, tuples and strings included, it raises the
    invalid-input error that names the type; a run over a dataset with such a
    datapoint raises, whatever the order of completion, and leaves a record
    without outputs and without end time. *)
Theorem C4_input_dispatch self (dp : Datapoint) x :
  dp !! "input" = Some x →
  match x with
  | VList args => ∀ v lmp p, call_lmp v dp lmp p = lmp v args [] p
  | VDict kwargs =>
      ∀ v lmp p, "api_params" ∉ kwargs.*1 → call_lmp v dp lmp p = lmp v [] kwargs p
  | _ =>
      (∀ v lmp p,
         _process_single self v dp lmp p =
         Raise (ValueError ("Invalid input type: " +:+ class_repr (type_name x)))) ∧
      (dp ∈ dataset self →
       ∀ lmp n_workers api v samples sched w,
       ∃ e w' r0, run self lmp n_workers api v samples sched w = (Raise e, w') ∧
                  record w' = Some r0 ∧
                  EvaluationRun.outputs r0 = [] ∧
                  EvaluationRun.end_time r0 = None)
  end.
Proof.
  intros Hx. unfold call_lmp at 1 2.
  destruct x; try (apply invalid_input_aborts; intros; unfold call_lmp; by rewrite Hx).
  - intros v lmp p. by rewrite Hx.
  - intros v lmp p Hk. by rewrite Hx, bool_decide_false.
Qed.

(** C5, as stated, fails: the error for an anonymous entry is a fixed text
    that does not identify the type of the offending value. *)
Example C5_lambda_message_lacks_type :
  anonymous Example.a_lambda = true ∧
  validate_criteria (CList [Example.a_lambda]) =
    Raise (ValueError "Each criterion in a list must have a name (not a lambda)") ∧
  mentions (class_repr (crit_type Example.a_lambda))
           "Each criterion in a list must have a name (not a lambda)" = false ∧
  mentions (crit_type Example.a_lambda)
           "Each criterion in a list must have a name (not a lambda)" = false.
Proof. repeat split. Qed.

Lemma validate_list_anonymous pre c post acc :
  anonymous c = true →
  (∃ m, validate_list (pre ++ c :: post) acc = Raise (ValueError m)) ∧
  (Forall (λ c', named c' = true) pre →
   validate_list (pre ++ c :: post) acc =
   Raise (ValueError "Each criterion in a list must have a name (not a lambda)")).
Proof.
  intros Hc. revert acc. induction pre as [|c' pre IH]; intros acc; cbn.
  - destruct c as [cls [n|] call|x]; cbn in Hc; try done.
    + apply bool_decide_eq_true in Hc as ->. rewrite decide_True by done. eauto.
    + eauto.
  - destruct c' as [cls [n|] call|x]; cbn.
    + destruct (decide (n = "<lambda>")) as [->|Hn].
      * split; [by eexists|]. intros [Hnamed _]%Forall_cons. cbn in Hnamed.
        by apply bool_decide_eq_true in Hnamed.
      * destruct (IH (dict_set n (Callable cls (Some n) call) acc)) as [IH1 IH2].
        split; [done|]. intros [_ Hpre]%Forall_cons. by apply IH2.
    + split; [by eexists|]. by intros [[=] _]%Forall_cons.
    + split; [by eexists|]. by intros [[=] _]%Forall_cons.
Qed.

(** C5, amended.  A criteria list with an anonymous entry (a callable without
    [__name__], or a lambda) is rejected at validation with a [ValueError];
    when the entries before it are named callables, the error is the fixed
    text about names, which does not identify the type of the value. *)
Theorem C5_anonymous_rejected pre c post :
  anonymous c = true →
  (∃ m, validate_criteria (CList (pre ++ c :: post)) = Raise (ValueError m)) ∧
  (Forall (λ c', named c' = true) pre →
   validate_criteria (CList (pre ++ c :: post)) =
   Raise (ValueError "Each criterion in a list must have a name (not a lambda)")).
Proof. apply validate_list_anonymous. Qed.

(** [float] converts only floats, ints, bools and strings; anything else,
    [None] included, is a [TypeError], never zero. *)
Lemma py_float_Ok x f :
  py_float float_of_str x = Ok f →
  match x with
  | VFloat _ | VInt _ | VBool _ | VStr _ => True
  | _ => False
  end.
Proof. by destruct x. Qed.


(** C7.  The parameters of a run are those of [default_api_params]
    overridden key by key by the caller's [api_params], in which ['n'] is then
    set to [samples_per_datapoint] when that is greater than 1.  They are
    attached to the record, whether the run returns or raises, and they are
    what every task calls the LMP with: the outputs of a run that returns are
    the results of the LMP called on the input of each datapoint with these
    parameters, and an LMP that raises when called with them on the input of
    some datapoint makes the run raise. *)
Theorem C7_api_params self lmp n_workers api v samples sched w :
  let p := run_api_params self api samples in
  (∀ k, k ≠ "n" ∨ (samples ≤ 1)%Z →
        p !! k = match default ∅ api !! k with
                 | Some x => Some x
                 | None => default ∅ (default_api_params self) !! k
                 end) ∧
  ((1 < samples)%Z → p !! "n" = Some (VInt samples)) ∧
  (∃ r0, record (run self lmp n_workers api v samples sched w).2 = Some r0 ∧
         EvaluationRun.api_params r0 = p) ∧
  (∀ r w', run self lmp n_workers api v samples sched w = (Ok r, w') →
     EvaluationRun.api_params r = p ∧
     ∃ rows : list (Datapoint * PyVal),
       rows.*1 ≡ₚ dataset self ∧
       Forall (λ '(dp, x),
                 match dp !! "input" with
                 | Some (VList args) => lmp v args [] p = Ok x
                 | Some (VDict kwargs) => lmp v [] kwargs p = Ok x
                 | _ => False
                 end) rows ∧
       EvaluationRun.outputs r =
         concat ((λ x, match x with VList l => l | _ => [x] end) <$> rows.*2)) ∧
  (∀ (dp : Datapoint) e0, dp ∈ dataset self →
     match dp !! "input" with
     | Some (VList args) => lmp v args [] p = Raise e0
     | Some (VDict kwargs) => ("api_params" ∉ kwargs.*1) ∧ lmp v [] kwargs p = Raise e0
     | _ => False
     end →
     ∃ e w', run self lmp n_workers api v samples sched w = (Raise e, w')).
Proof.
  intros p. split; [|split; [|split; [|split]]].
  - intros k Hk. unfold p, run_api_params.
    assert ((default ∅ api ∪ default ∅ (default_api_params self)) !! k =
            match default ∅ api !! k with
            | Some x => Some x
            | None => default ∅ (default_api_params self) !! k
            end) as Hmerge.
    { rewrite lookup_union. by destruct (default ∅ api !! k), (default ∅ _ !! k). }
    destruct (decide (1 < samples)%Z); [|done].
    destruct Hk as [Hk|Hk]; [|lia]. by rewrite lookup_insert_ne.
  - intros Hs. unfold p, run_api_params. rewrite decide_True by done.
    by rewrite lookup_insert_eq.
  - destruct (run self lmp n_workers api v samples sched w) as [[r|e] w'] eqn:Hrun.
    + apply run_Ok in Hrun as (results & _ & _ & -> & ->). by eexists.
    + apply run_Raise_world in Hrun as ->. by eexists.
  - intros r w' Hrun.
    destruct (run_Ok_calls _ _ _ _ _ _ _ _ _ _ Hrun) as (rows & Hds & Hrows & Hout).
    split; [by apply run_Ok in Hrun as (results & _ & _ & -> & _)|].
    exists rows. split; [|done]. rewrite Hds. apply as_completed_Permutation.
  - intros dp e0 Hdp Hcall. apply (run_Raise _ _ _ _ _ _ _ _ dp e0 Hdp).
    apply process_single_call_Raise. unfold call_lmp. fold p.
    destruct (dp !! "input") as [[]|]; try done.
    destruct Hcall as [Hk Hcall]. by rewrite bool_decide_false.
Qed.

(** C8.  Whether [run] returns or raises, [config.verbose] is afterwards what
    it was before the call; and the LMP calls of the run are made under the
    caller's [verbose]: the outputs of a run that returns are those of the
    calls with the flag at that value, and a task that raises under that flag
    makes the run raise. *)
Theorem C8_verbose_scoped self lmp n_workers api v samples sched w :
  let p := run_api_params self api samples in
  verbose (run self lmp n_workers api v samples sched w).2 = verbose w ∧
  (∀ r w', run self lmp n_workers api v samples sched w = (Ok r, w') →
           EvaluationRun.outputs r ≡ₚ
           concat ((λ dp, lmp_outputs v dp lmp p) <$> dataset self)) ∧
  (∀ dp e0, dp ∈ dataset self → _process_single self v dp lmp p = Raise e0 →
            ∃ e w', run self lmp n_workers api v samples sched w = (Raise e, w') ∧
                    verbose w' = verbose w).
Proof.
  intros p. split; [|split].
  - destruct (run self lmp n_workers api v samples sched w) as [[r|e] w'] eqn:Hrun.
    + by apply run_Ok in Hrun as (results & _ & _ & _ & ->).
    + by apply run_Raise_world in Hrun as ->.
  - intros r w' (results & Htasks & _ & -> & _)%run_Ok. cbn.
    rewrite (results_outputs _ _ _ _ _ _ Htasks).
    apply concat_fmap_Permutation, as_completed_Permutation.
  - intros dp e0 Hin Htask.
    destruct (run_Raise self lmp n_workers api v samples sched w dp e0 Hin Htask)
      as (e & w' & Hrun).
    exists e, w'. split; [done|]. by apply run_Raise_world in Hrun as ->.
Qed.



(** C10.  The LMP's return value is taken as several outputs only when it is
    a [list].  Any other value, a tuple or a string included, is one output:
    the task returns it alone, with one score per criterion. *)
Theorem C10_only_list_is_many self v (dp : Datapoint) lmp p x outs sc :
  call_lmp v dp lmp p = Ok x →
  _process_single self v dp lmp p = Ok (outs, sc) →
  (∀ l, x = VList l → outs = l) ∧
  (is_list x = false →
   outs = [x] ∧ lmp_outputs v dp lmp p = [x] ∧
   sc.*1 = (criteria self).*1 ∧ Forall (λ r, length r.2 = 1) sc) ∧
  (∀ l, is_list (VTuple l) = false) ∧ (∀ s, is_list (VStr s) = false).
Proof.
  intros Hcall Htask.
  pose proof (process_single_names _ _ _ _ _ _ _ Htask) as Hnames.
  apply process_single_Ok in Htask as ((x' & Hcall' & ->) & Houts & Hsc).
  rewrite Hcall in Hcall'. injection Hcall' as <-.
  split; [by intros l ->|]. split; [|done].
  intros Hx. assert (normalize_output x = [x]) as Hn by by destruct x.
  rewrite <- Houts, Hn in *. repeat split; [done|].
  apply Forall_forall. intros r Hr. apply list_elem_of_lookup in Hr as [i Hi].
  destruct (Forall2_lookup_r _ _ _ _ _ Hsc Hi) as (c & _ & _ & Hm).
  by apply mapM_Ok_length in Hm.
Qed.

(** * Further properties of the engine *)

(** ** Assignment to a dictionary key *)

Lemma dict_set_fresh {V} (k : string) (v : V) (d : list (string * V)) :
  k ∉ d.*1 → dict_set k v d = d ++ [(k, v)].
Proof.
  induction d as [|[k' v'] d IH]; [done|]. rewrite fmap_cons, not_elem_of_cons.
  intros [Hne Hk]. cbn in *. rewrite decide_False by done. by rewrite IH.
Qed.

Lemma dict_set_keys {V} (k : string) (v : V) (d : list (string * V)) :
  (dict_set k v d).*1 = if decide (k ∈ d.*1) then d.*1 else d.*1 ++ [k].
Proof.
  induction d as [|[k' v'] d IH]; [done|]. cbn.
  destruct (decide (k' = k)) as [->|Hne].
  - rewrite decide_True by left. done.
  - rewrite fmap_cons, IH. cbn. destruct (decide (k ∈ d.*1)) as [Hin|Hin].
    + rewrite decide_True by by right. done.
    + rewrite decide_False; [done|]. rewrite not_elem_of_cons. done.
Qed.

Lemma dict_set_NoDup {V} (k : string) (v : V) (d : list (string * V)) :
  NoDup d.*1 → NoDup (dict_set k v d).*1.
Proof.
  intros Hnd. rewrite dict_set_keys. destruct (decide (k ∈ d.*1)); [done|].
  apply NoDup_app. split; [done|]. split; [|apply NoDup_singleton].
  intros x Hx ->%list_elem_of_singleton. done.
Qed.

Lemma dict_set_elem_of {V} (k : string) (v : V) (d : list (string * V)) n c :
  NoDup d.*1 →
  (n, c) ∈ dict_set k v d ↔ (n = k ∧ c = v) ∨ (n ≠ k ∧ (n, c) ∈ d).
Proof.
  induction d as [|[k' v'] d IH]; intros Hnd.
  - cbn. rewrite list_elem_of_singleton. split.
    + intros [= -> ->]. by left.
    + intros [[-> ->]|[_ H]]; [done | by apply elem_of_nil in H].
  - rewrite fmap_cons, NoDup_cons in Hnd. destruct Hnd as [Hk' Hnd]. cbn in Hk'.
    cbn. destruct (decide (k' = k)) as [->|Hne].
    + rewrite !elem_of_cons. split.
      * intros [[= -> ->]|Hin]; [by left|]. right. split; [|by right].
        intros ->. apply Hk'. change k with ((k, c).1). by apply list_elem_of_fmap_2.
      * intros [[-> ->]|[Hn [[= ? ?]|Hin]]]; [by left | done | by right].
    + rewrite !elem_of_cons, IH by done. split.
      * intros [[= -> ->]|[[-> ->]|[Hn Hin]]].
        -- right. split; [done | by left].
        -- by left.
        -- right. split; [done | by right].
      * intros [[-> ->]|[Hn [[= -> ->]|Hin]]].
        -- right. by left.
        -- by left.
        -- right. right. done.
Qed.

Lemma dict_set_Forall {V} (P : string * V → Prop) (k : string) (v : V) d :
  P (k, v) → Forall P d → Forall P (dict_set k v d).
Proof.
  intros Hv. induction 1 as [|[k' v'] d Hx Hd IH]; cbn.
  - by constructor.
  - destruct (decide (k' = k)); constructor; done.
Qed.

(** ** Validation of criteria *)

Lemma named_crit_name c :
  named c = true ↔ ∃ n, crit_name c = Some n ∧ n ≠ "<lambda>".
Proof.
  destruct c as [cls [n|] call|x]; cbn.
  - rewrite bool_decide_eq_true. split; [eauto|]. by intros (? & [= <-] & ?).
  - split; [done|]. by intros (? & [=] & _).
  - split; [done|]. by intros (? & [=] & _).
Qed.

Lemma validate_list_named c l acc n :
  crit_name c = Some n → n ≠ "<lambda>" →
  validate_list (c :: l) acc = validate_list l (dict_set n c acc).
Proof.
  destruct c as [cls [n'|] call|x]; cbn; try done.
  intros [= ->] Hn. by rewrite decide_False.
Qed.

Lemma validate_list_Ok_named l acc d :
  validate_list l acc = Ok d → Forall (λ c, named c = true) l.
Proof.
  revert acc. induction l as [|c l IH]; intros acc; [constructor|].
  destruct c as [cls [n|] call|x]; cbn; try done.
  destruct (decide (n = "<lambda>")); [done|]. intros H.
  constructor; [by apply bool_decide_eq_true | by eapply IH].
Qed.

(** The dictionary that the list branch builds: the keys stay distinct, they
    are the accumulator's and the names of the entries, and a name is bound
    to the last entry of that name. *)
Lemma validate_list_Ok l acc d :
  NoDup acc.*1 → validate_list l acc = Ok d →
  NoDup d.*1 ∧
  (∀ n c, (n, c) ∈ d ↔
     (∃ pre post, l = pre ++ c :: post ∧ crit_name c = Some n ∧
                  Forall (λ c', crit_name c' ≠ Some n) post) ∨
     ((n, c) ∈ acc ∧ Forall (λ c', crit_name c' ≠ Some n) l)).
Proof.
  revert acc. induction l as [|c0 l IH]; intros acc Hnd H.
  - injection H as <-. split; [done|]. intros n c. split.
    + intros Hin. right. by split.
    + intros [(pre & post & Hl & _)|[Hin _]]; [by destruct pre | done].
  - pose proof (validate_list_Ok_named _ _ _ H) as Hall.
    apply Forall_cons in Hall as [Hc0 _].
    apply named_crit_name in Hc0 as (n0 & Hn0 & Hlam).
    rewrite (validate_list_named _ _ _ _ Hn0 Hlam) in H.
    destruct (IH _ (dict_set_NoDup n0 c0 acc Hnd) H) as [Hd Hin].
    split; [done|]. intros n c. rewrite Hin, dict_set_elem_of by done. split.
    + intros [(pre & post & -> & Hc & Hpost)|[[[-> ->]|[Hne Hacc]] Hl]].
      * left. by exists (c0 :: pre), post.
      * left. by exists [], l.
      * right. split; [done|]. constructor; [congruence | done].
    + intros [(pre & post & Hl & Hc & Hpost)|[Hacc [Hne Hl]%Forall_cons]].
      * destruct pre as [|c1 pre]; injection Hl as -> ->.
        -- right. split; [|done]. left. split; congruence.
        -- left. by exists pre, post.
      * right. split; [|done]. right. split; [congruence | done].
Qed.

Lemma validate_list_callable l acc d :
  Forall (λ kc, callable kc.2 = true) acc →
  validate_list l acc = Ok d → Forall (λ kc, callable kc.2 = true) d.
Proof.
  revert acc. induction l as [|c l IH]; intros acc Hacc; [by intros [= <-]|].
  destruct c as [cls [n|] call|x]; cbn; try done.
  destruct (decide (n = "<lambda>")); [done|].
  apply IH. by apply dict_set_Forall.
Qed.

Lemma validate_list_Raise l acc e :
  validate_list l acc = Raise e → ∃ m, e = ValueError m.
Proof.
  revert acc. induction l as [|c l IH]; intros acc; [done|].
  destruct c as [cls [n|] call|x]; cbn.
  - destruct (decide (n = "<lambda>")); [intros [= <-]; by eexists | apply IH].
  - intros [= <-]. by eexists.
  - intros [= <-]. by eexists.
Qed.

Lemma validate_dict_Ok d :
  validate_dict d = Ok () ↔ Forall (λ kc, callable kc.2 = true) d.
Proof.
  induction d as [|[k [cls n call|x]] d IH]; cbn.
  - split; [constructor | done].
  - rewrite IH. split; [by constructor | by intros [_ ?]%Forall_cons].
  - split; [done | by intros [[=] _]%Forall_cons].
Qed.

Lemma validate_dict_Raise d e :
  validate_dict d = Raise e →
  ∃ pre name x post,
    d = pre ++ (name, NotCallable x) :: post ∧
    Forall (λ kc, callable kc.2 = true) pre ∧
    e = ValueError ("Criterion '" +:+ name +:+ "' must be a callable, got "
                    +:+ class_repr (type_name x)).
Proof.
  induction d as [|[k [cls n call|x]] d IH]; cbn; [done| |].
  - intros (pre & name & x & post & -> & Hpre & ->)%IH.
    exists ((k, Callable cls n call) :: pre), name, x, post.
    split; [done|]. split; [by constructor | done].
  - intros [= <-]. by exists [], k, x, d.
Qed.

Lemma last_occurrence {A} (P : A → Prop) `{∀ x, Decision (P x)} (l : list A) :
  Exists P l →
  ∃ pre x post, l = pre ++ x :: post ∧ P x ∧ Forall (λ y, ¬ P y) post.
Proof.
  induction l as [|x0 l IH]; intros Hex; [by apply Exists_nil in Hex|].
  destruct (decide (Exists P l)) as [Hl|Hl].
  - destruct (IH Hl) as (pre & x & post & -> & Hx & Hpost).
    by exists (x0 :: pre), x, post.
  - apply Exists_cons in Hex as [Hx0|Hex]; [|done].
    exists [], x0, l. split; [done|]. split; [done|]. by apply not_Exists_Forall.
Qed.

Lemma validate_list_fresh l acc :
  Forall (λ c, named c = true) l → NoDup (omap crit_name l) →
  (∀ n, n ∈ omap crit_name l → n ∉ acc.*1) →
  validate_list l acc = Ok (acc ++ zip (omap crit_name l) l).
Proof.
  intros Hall. revert acc. induction Hall as [|c l Hc _ IH]; intros acc Hnd Hacc.
  - cbn. by rewrite app_nil_r.
  - apply named_crit_name in Hc as (n & Hn & Hlam).
    rewrite (validate_list_named _ _ _ _ Hn Hlam).
    cbn in Hnd, Hacc |- *. rewrite Hn in Hnd, Hacc |- *.
    apply NoDup_cons in Hnd as [Hnl Hnd].
    rewrite dict_set_fresh by (apply Hacc; left).
    rewrite IH; [by rewrite <- app_assoc | done |].
    intros n' Hn'. rewrite fmap_app, not_elem_of_app. split.
    + apply Hacc. by right.
    + cbn. rewrite list_elem_of_singleton. by intros ->.
Qed.

Lemma validate_list_not_callable pre x post acc :
  Forall (λ c, named c = true) pre →
  validate_list (pre ++ NotCallable x :: post) acc =
  Raise (ValueError ("Each criterion must be a callable, got "
                     +:+ class_repr (type_name x))).
Proof.
  intros Hpre. revert acc. induction Hpre as [|c pre Hc _ IH]; intros acc; [done|].
  apply named_crit_name in Hc as (n & Hn & Hlam).
  rewrite <- app_comm_cons, (validate_list_named _ _ _ _ Hn Hlam). apply IH.
Qed.

(** ** Further properties of validation *)

(** X1.  A criteria list is accepted exactly when every entry is a callable
    whose [__name__] exists and is not ["<lambda>"]. *)
Theorem list_accepted_iff_all_named l :
  is_ok (validate_criteria (CList l)) = forallb named l.
Proof.
  unfold validate_criteria. generalize (@nil (string * CritObj)).
  induction l as [|c l IH]; intros acc; [done|].
  destruct c as [cls [n|] call|x]; cbn; try done.
  destruct (decide (n = "<lambda>")) as [->|Hn]; [done|].
  by rewrite IH, bool_decide_true.
Qed.

(** X2.  The dictionary made from an accepted list has distinct keys, its
    keys are the names of the entries, and each name is bound to the last
    entry of the list that has it: a later criterion silently replaces an
    earlier one of the same name. *)
Theorem validated_list_keys l d :
  validate_criteria (CList l) = Ok d →
  NoDup d.*1 ∧
  (∀ n, n ∈ d.*1 ↔ ∃ c, c ∈ l ∧ crit_name c = Some n) ∧
  (∀ n c, (n, c) ∈ d ↔
     ∃ pre post, l = pre ++ c :: post ∧ crit_name c = Some n ∧
                 Forall (λ c', crit_name c' ≠ Some n) post).
Proof.
  intros H. destruct (validate_list_Ok l [] d) as [Hnd Hin]; [constructor | done |].
  assert (∀ n c, (n, c) ∈ d ↔
            ∃ pre post, l = pre ++ c :: post ∧ crit_name c = Some n ∧
                        Forall (λ c', crit_name c' ≠ Some n) post) as Hpairs.
  { intros n c. rewrite Hin. split; [|by left].
    intros [?|[Hnil _]]; [done | by apply elem_of_nil in Hnil]. }
  split; [done|]. split; [|done]. intros n. split.
  - intros ([n' c] & -> & Hc)%list_elem_of_fmap.
    apply Hpairs in Hc as (pre & post & -> & Hc & _). exists c. split; [|done].
    apply elem_of_app. right. left.
  - intros (c & Hc & Hn).
    destruct (last_occurrence (λ c', crit_name c' = Some n) l)
      as (pre & c' & post & Hl & Hc' & Hpost).
    { apply Exists_exists. eauto. }
    change n with ((n, c').1). apply list_elem_of_fmap_2, Hpairs. eauto.
Qed.

(** X3.  When the names of the entries are distinct, the dictionary made
    from an accepted list binds each name to its entry, in the order of the
    list. *)
Theorem validated_list_in_order l :
  Forall (λ c, named c = true) l → NoDup (omap crit_name l) →
  validate_criteria (CList l) = Ok (zip (omap crit_name l) l).
Proof.
  intros Hall Hnd. unfold validate_criteria.
  rewrite validate_list_fresh; [done | done | done |].
  intros n _. apply not_elem_of_nil.
Qed.

(** X4.  A list entry that is not callable, after entries that are accepted,
    is rejected with a message that gives the type of the entry. *)
Theorem non_callable_entry_names_type pre x post :
  Forall (λ c, named c = true) pre →
  let msg := "Each criterion must be a callable, got " +:+ class_repr (type_name x) in
  validate_criteria (CList (pre ++ NotCallable x :: post)) = Raise (ValueError msg) ∧
  mentions (class_repr (crit_type (NotCallable x))) msg = true.
Proof.
  intros Hpre msg. split.
  - by apply validate_list_not_callable.
  - by destruct x.
Qed.

(** X5.  A criteria dictionary is returned as it is when all its values are
    callable, lambdas and callables without a name included; otherwise the
    error names the first key whose value is not callable, and the type of
    that value. *)
Theorem dict_criteria_validated (d : list (string * CritObj)) :
  match validate_criteria (CDict d) with
  | Ok d' => d' = d ∧ Forall (λ kc, callable kc.2 = true) d
  | Raise e =>
      ∃ pre name x post,
        d = pre ++ (name, NotCallable x) :: post ∧
        Forall (λ kc, callable kc.2 = true) pre ∧
        e = ValueError ("Criterion '" +:+ name +:+ "' must be a callable, got "
                        +:+ class_repr (type_name x))
  end.
Proof.
  unfold validate_criteria. destruct (validate_dict d) as [[]|e] eqn:Hd; cbn.
  - split; [done|]. by apply validate_dict_Ok.
  - by apply validate_dict_Raise.
Qed.

(** X6.  Whatever is passed as criteria, validation either returns a
    dictionary all of whose values are callable, or raises a [ValueError];
    a value that is neither a list nor a dictionary, [None] included, is
    refused. *)
Theorem validation_returns_callables_or_ValueError (criteria : CriteriaArg) :
  match validate_criteria criteria with
  | Ok d =>
      Forall (λ kc, callable kc.2 = true) d ∧
      match criteria with COther _ => False | _ => True end
  | Raise e => ∃ m, e = ValueError m
  end.
Proof.
  destruct criteria as [l|d|x]; cbn.
  - destruct (validate_list l []) as [d|e] eqn:Hl.
    + split; [|done]. eapply validate_list_callable; [|exact Hl]. constructor.
    + by eapply validate_list_Raise.
  - destruct (validate_dict d) as [[]|e] eqn:Hd; cbn.
    + split; [|done]. by apply validate_dict_Ok.
    + apply validate_dict_Raise in Hd as (? & ? & ? & ? & _ & _ & ->). by eexists.
  - by eexists.
Qed.

(** X7.  Validation is idempotent: the dictionary that validation returns,
    passed as criteria again, is returned unchanged. *)
Theorem validated_criteria_validate_again (criteria : CriteriaArg) d :
  validate_criteria criteria = Ok d → validate_criteria (CDict d) = Ok d.
Proof.
  intros H. assert (Forall (λ kc, callable kc.2 = true) d) as Hd.
  { destruct criteria as [l|d0|x]; cbn in H.
    - eapply validate_list_callable; [|exact H]. constructor.
    - destruct (validate_dict d0) as [[]|e] eqn:Hd0; [|done].
      injection H as <-. by apply validate_dict_Ok.
    - done. }
  apply validate_dict_Ok in Hd. cbn. by rewrite Hd.
Qed.

(** ** Further properties of the run record and of a task *)

(** X8.  [inputs] gives the ['input'] of each datapoint of the record's
    dataset, in order; it raises [KeyError('input')] exactly when some
    datapoint has no such key. *)
Theorem inputs_in_dataset_order (r : EvaluationRun.t) :
  match EvaluationRun.inputs r with
  | Ok l => Forall2 (λ (d : Datapoint) x, d !! "input" = Some x) (EvaluationRun.dataset r) l
  | Raise e =>
      e = KeyError "input" ∧
      ∃ d : Datapoint, d ∈ EvaluationRun.dataset r ∧ d !! "input" = None
  end.
Proof.
  unfold EvaluationRun.inputs.
  destruct (mapM _ (EvaluationRun.dataset r)) as [l|e] eqn:Hm.
  - apply mapM_Ok_Forall2 in Hm. eapply Forall2_impl; [exact Hm|].
    intros d x. cbn. by destruct (d !! "input"); intros [= <-].
  - apply mapM_Raise_inv in Hm as (d & Hin & Hd). cbn in Hd.
    destruct (d !! "input") eqn:Hk; [done|]. injection Hd as <-. eauto.
Qed.

(** X9.  A datapoint without the key ['input'] makes its task raise
    [KeyError('input')] before the LMP is called, and every run over a
    dataset that has it raise, in every order of completion. *)
Theorem missing_input_key self (dp : Datapoint) :
  dp !! "input" = None →
  (∀ v lmp p, _process_single self v dp lmp p = Raise (KeyError "input")) ∧
  (dp ∈ dataset self →
   ∀ lmp n_workers api v samples sched w,
   ∃ e w', run self lmp n_workers api v samples sched w = (Raise e, w') ∧
           verbose w' = verbose w).
Proof.
  intros Hk.
  destruct (invalid_input_aborts self dp (KeyError "input")) as [Htask Hrun].
  { intros v lmp p. unfold call_lmp. by rewrite Hk. }
  split; [done|]. intros Hin lmp n_workers api v samples sched w.
  destruct (Hrun Hin lmp n_workers api v samples sched w) as (e & w' & _ & Hr & _).
  exists e, w'. split; [done|]. by apply run_Raise_world in Hr as ->.
Qed.

(** X10.  A dict input that has the key ['api_params'] collides with the
    keyword of the same name in the call of the LMP: the task raises a
    [TypeError] whatever the LMP is, and every run over a dataset with such
    a datapoint raises. *)
Theorem api_params_key_collides self (dp : Datapoint) kwargs :
  dp !! "input" = Some (VDict kwargs) → "api_params" ∈ kwargs.*1 →
  (∀ v lmp p, ∃ m, _process_single self v dp lmp p = Raise (TypeError m)) ∧
  (dp ∈ dataset self →
   ∀ lmp n_workers api v samples sched w,
   ∃ e w', run self lmp n_workers api v samples sched w = (Raise e, w')).
Proof.
  intros Hk Hin.
  destruct (invalid_input_aborts self dp
              (TypeError "got multiple values for keyword argument 'api_params'"))
    as [Htask Hrun].
  { intros v lmp p. unfold call_lmp. by rewrite Hk, bool_decide_true. }
  split; [by eexists|]. intros Hdp lmp n_workers api v samples sched w.
  destruct (Hrun Hdp lmp n_workers api v samples sched w) as (e & w' & _ & Hr & _).
  by exists e, w'.
Qed.

(** X11.  A task that returns gives the normalized outputs of its LMP call
    and one row of scores per criterion, in the order of the criteria, each
    row with exactly one score per output. *)
Theorem task_result_shape self v (dp : Datapoint) lmp p outs sc :
  _process_single self v dp lmp p = Ok (outs, sc) →
  outs = lmp_outputs v dp lmp p ∧
  sc.*1 = (criteria self).*1 ∧
  Forall (λ row, length row.2 = length outs) sc.
Proof.
  intros Htask. pose proof (process_single_names _ _ _ _ _ _ _ Htask) as Hnames.
  apply process_single_Ok in Htask as (_ & Houts & Hsc).
  split; [done|]. split; [done|].
  apply Forall_forall. intros row Hrow. apply list_elem_of_lookup in Hrow as [i Hi].
  destruct (Forall2_lookup_r _ _ _ _ _ Hsc Hi) as (c & _ & _ & Hm).
  by apply mapM_Ok_length in Hm.
Qed.

Lemma mapM_first_Raise {A B} (f : A → Res B) (pre : list A) x post e :
  Forall (λ y, is_ok (f y) = true) pre → f x = Raise e →
  mapM f (pre ++ x :: post) = Raise e.
Proof.
  intros Hpre Hx. induction Hpre as [|y pre Hy _ IH]; cbn [app]; rewrite mapM_cons.
  - by rewrite Hx.
  - destruct (f y); [|done]. by rewrite IH.
Qed.

Lemma mapM_is_ok {A B} (f : A → Res B) (l : list A) :
  Forall (λ y, is_ok (f y) = true) l → is_ok (mapM f l) = true.
Proof.
  induction 1 as [|y l Hy _ IH]; [done|]. rewrite mapM_cons.
  destruct (f y); [|done]. by destruct (mapM f l).
Qed.

(** X12.  The criteria are applied in their order, each to the outputs in
    their order, and the first conversion that fails ends the task: its
    error is the task's error. *)
Theorem first_failing_score_is_raised self v (dp : Datapoint) lmp p x
    pre name crit post opre o opost e :
  call_lmp v dp lmp p = Ok x →
  criteria self = pre ++ (name, crit) :: post →
  normalize_output x = opre ++ o :: opost →
  Forall (λ c, Forall (λ o', is_ok (score c.2 dp o') = true) (normalize_output x)) pre →
  Forall (λ o', is_ok (score crit dp o') = true) opre →
  score crit dp o = Raise e →
  _process_single self v dp lmp p = Raise e.
Proof.
  intros Hcall Hcrit Houts Hpre Hopre Ho.
  unfold Evaluation._process_single. rewrite Hcall. cbn.
  destruct (criteria self) as [|c cs] eqn:Hc; [by destruct pre|].
  rewrite Hcrit, (mapM_first_Raise _ pre (name, crit) post e); [done| |].
  - eapply Forall_impl; [exact Hpre|]. intros [n c'] Hc'. cbn in *.
    apply mapM_is_ok in Hc'. by destruct (mapM _ _).
  - rewrite Houts, (mapM_first_Raise _ opre o opost e); done.
Qed.

(** ** Further properties of a run *)

Lemma set_postfix_no_criteria self s output e :
  criteria self = [] → set_postfix self s output = Raise e →
  e = IndexError "list index out of range".
Proof.
  unfold set_postfix. intros ->. destruct output; [|done]. by intros [= <-].
Qed.

(** A loop over returned tasks that each have an output does not raise. *)
Lemma drain_returns self v lmp p (completed : list (Res TaskResult)) s o :
  Forall (λ fut, ∃ (dp : Datapoint) x outs sc,
            _process_single self v dp lmp p = fut ∧ fut = Ok (x :: outs, sc))
         completed →
  ∃ s' o', drain self completed s o = Ok (s', o').
Proof.
  intros Hall. revert s o.
  induction Hall as [|fut completed (dp & x & outs & sc & Htask & ->) _ IH]; intros s o.
  - by eexists _, _.
  - rewrite drain_cons, set_postfix_Ok; [apply IH | done |].
    apply Forall_forall. intros name Hname. apply extend_scores_nonempty.
    + apply Forall_forall. intros [n l] Hnl. cbn.
      apply process_single_Ok in Htask as (_ & _ & Hsc).
      apply list_elem_of_lookup in Hnl as [i Hi].
      destruct (Forall2_lookup_r _ _ _ _ _ Hsc Hi) as (c & _ & _ & Hm).
      apply mapM_Ok_length in Hm. cbn in Hm. by destruct l.
    + left. by rewrite (process_single_names _ _ _ _ _ _ _ Htask).
Qed.

Lemma run_returns self lmp n_workers api v samples sched w :
  (0 < n_workers)%Z →
  Forall (λ dp, ∃ x outs sc,
            _process_single self v dp lmp (run_api_params self api samples) =
            Ok (x :: outs, sc)) (dataset self) →
  ∃ r w', run self lmp n_workers api v samples sched w = (Ok r, w').
Proof.
  intros Hn Hall. rewrite run_eq, decide_False by lia.
  edestruct (drain_returns self v lmp) as (s' & o' & ->); [|by eexists _, _].
  rewrite as_completed_Permutation. apply Forall_fmap.
  eapply Forall_impl; [exact Hall|]. intros dp (x & outs & sc & Hdp). cbn.
  by exists dp, x, outs, sc.
Qed.

Lemma run_Ok_tasks self lmp n_workers api v samples sched w r w' :
  run self lmp n_workers api v samples sched w = (Ok r, w') →
  (0 < n_workers)%Z ∧
  Forall (λ dp, ∃ x outs sc,
            _process_single self v dp lmp (run_api_params self api samples) =
            Ok (x :: outs, sc)) (dataset self).
Proof.
  intros Hrun. split.
  - rewrite run_eq in Hrun. destruct (decide (n_workers ≤ 0)%Z); [done | lia].
  - apply run_Ok in Hrun as (results & Htasks & Hne & _).
    rewrite <- (as_completed_Permutation sched). apply Forall_forall. intros dp Hdp.
    apply list_elem_of_lookup in Hdp as [i Hi].
    destruct (Forall2_lookup_l _ _ _ _ _ Htasks Hi) as ([outs sc] & Hres & Htask).
    apply (Forall_lookup_1 _ _ _ _ Hne) in Hres. cbn in Hres.
    destruct outs as [|x outs]; [done|]. by exists x, outs, sc.
Qed.

(** X13.  A pool of no workers is refused: with [n_workers] at most 0 the
    run raises [ValueError] whatever the dataset and the LMP are, and the
    verbosity flag is as before. *)
Theorem no_workers_refused self lmp n_workers api v samples sched w :
  (n_workers ≤ 0)%Z →
  (run self lmp n_workers api v samples sched w).1 =
    Raise (ValueError "max_workers must be greater than 0") ∧
  verbose (run self lmp n_workers api v samples sched w).2 = verbose w.
Proof. intros Hn. rewrite run_eq, decide_True by done. done. Qed.

(** X14.  On an empty dataset a run with at least one worker returns a
    record without outputs and without scores, with both times set. *)
Theorem empty_dataset_returns self lmp n_workers api v samples sched w :
  dataset self = [] → (0 < n_workers)%Z →
  ∃ r w',
    run self lmp n_workers api v samples sched w = (Ok r, w') ∧
    EvaluationRun.outputs r = [] ∧ EvaluationRun.scores r = ∅ ∧
    EvaluationRun.api_params r = run_api_params self api samples ∧
    EvaluationRun.start_time r = clock w (reads w) ∧
    EvaluationRun.end_time r = Some (clock w (S (reads w))).
Proof.
  intros Hd Hn. rewrite run_eq, decide_False, Hd by lia. cbn.
  eexists _, _. split; [done|]. cbn. by destruct (criteria self).
Qed.

(** X15.  A run returns exactly when the pool has at least one worker and
    the task of every datapoint returns at least one output; the order of
    completion plays no part. *)
Theorem run_returns_iff self lmp n_workers api v samples sched w :
  let p := run_api_params self api samples in
  (∃ r w', run self lmp n_workers api v samples sched w = (Ok r, w')) ↔
  (0 < n_workers)%Z ∧
  Forall (λ dp, ∃ x outs sc, _process_single self v dp lmp p = Ok (x :: outs, sc))
         (dataset self).
Proof.
  intros p. split.
  - intros (r & w' & Hrun). by eapply run_Ok_tasks.
  - intros [Hn Hall]. by apply run_returns.
Qed.

Lemma extend_scores_lookup_all (s : gmap string (list spec_float)) result name :
  default [] (extend_scores s result !! name) =
  default [] (s !! name) ++ concat (filter (λ r, r.1 = name) result).*2.
Proof.
  revert s. induction result as [|[n l] result IH]; intros s.
  - cbn. by rewrite app_nil_r.
  - rewrite extend_scores_cons, IH, filter_cons. cbn.
    destruct (decide (n = name)) as [->|Hne].
    + rewrite lookup_insert_eq. cbn. by rewrite app_assoc.
    + by rewrite lookup_insert_ne.
Qed.

(** The scores that the task of a datapoint returns under a name. *)
Lemma results_scores_all self v lmp p name (ds : list Datapoint)
    (results : list TaskResult) (s : gmap string (list spec_float)) :
  Forall2 (λ dp res, _process_single self v dp lmp p = Ok res) ds results →
  default [] (foldl extend_scores s results.*2 !! name) =
  default [] (s !! name) ++
  concat ((λ dp, match _process_single self v dp lmp p with
                 | Ok res => concat (filter (λ r, r.1 = name) res.2).*2
                 | Raise _ => []
                 end) <$> ds).
Proof.
  intros H. revert s. induction H as [|dp res ds results H _ IH]; intros s.
  - cbn. by rewrite app_nil_r.
  - rewrite !fmap_cons, concat_cons. cbn [foldl].
    rewrite IH, extend_scores_lookup_all, H, app_assoc. done.
Qed.

(** X16.  The order of completion decides neither whether a run returns nor
    what it returns, up to order: two runs from the same world that differ
    only in that order both return or both raise, and when they return their
    outputs, and their scores under every name, are the same up to a
    permutation, with the same parameters and times. *)
Theorem run_outcome_independent_of_order self lmp n_workers api v samples
    sched1 sched2 w :
  is_ok (run self lmp n_workers api v samples sched1 w).1 =
  is_ok (run self lmp n_workers api v samples sched2 w).1 ∧
  ∀ r1 w1 r2 w2,
    run self lmp n_workers api v samples sched1 w = (Ok r1, w1) →
    run self lmp n_workers api v samples sched2 w = (Ok r2, w2) →
    EvaluationRun.outputs r1 ≡ₚ EvaluationRun.outputs r2 ∧
    (∀ name, EvaluationRun.scores_at r1 name ≡ₚ EvaluationRun.scores_at r2 name) ∧
    EvaluationRun.api_params r1 = EvaluationRun.api_params r2 ∧
    EvaluationRun.start_time r1 = EvaluationRun.start_time r2 ∧
    EvaluationRun.end_time r1 = EvaluationRun.end_time r2.
Proof.
  split.
  - assert (∀ s1 s2, is_ok (run self lmp n_workers api v samples s1 w).1 = true →
                     is_ok (run self lmp n_workers api v samples s2 w).1 = true) as Hle.
    { intros s1 s2.
      destruct (run self lmp n_workers api v samples s1 w) as [[r|e] w'] eqn:H1; [|done].
      intros _. apply run_Ok_tasks in H1 as [Hn Hall].
      destruct (run_returns self lmp n_workers api v samples s2 w Hn Hall)
        as (r2 & w2 & ->). done. }
    pose proof (Hle sched1 sched2). pose proof (Hle sched2 sched1).
    destruct (is_ok (run self lmp n_workers api v samples sched1 w).1),
             (is_ok (run self lmp n_workers api v samples sched2 w).1); auto.
    symmetry. auto.
  - intros r1 w1 r2 w2 (res1 & Ht1 & _ & -> & _)%run_Ok (res2 & Ht2 & _ & -> & _)%run_Ok.
    cbn [EvaluationRun.outputs EvaluationRun.api_params EvaluationRun.start_time
         EvaluationRun.end_time]. split; [|split; [|done]].
    + rewrite (results_outputs _ _ _ _ _ _ Ht1), (results_outputs _ _ _ _ _ _ Ht2).
      apply concat_fmap_Permutation.
      by rewrite !as_completed_Permutation.
    + intros name. unfold EvaluationRun.scores_at. cbn [EvaluationRun.scores].
      destruct (criteria self); [done|].
      rewrite (results_scores_all _ _ _ _ name _ _ ∅ Ht1).
      rewrite (results_scores_all _ _ _ _ name _ _ ∅ Ht2).
      apply Permutation_app; [done|]. apply concat_fmap_Permutation.
      by rewrite !as_completed_Permutation.
Qed.

Lemma fmap_concat_fmap {A B C} (g : B → C) (f : A → list B) (l : list A) :
  g <$> concat (f <$> l) = concat ((λ x, g <$> f x) <$> l).
Proof.
  induction l as [|x l IH]; [done|].
  by rewrite !fmap_cons, !concat_cons, fmap_app, IH.
Qed.

Lemma elem_of_concat_fmap {A B} (f : A → list B) (l : list A) (y : B) :
  y ∈ concat (f <$> l) → ∃ x, x ∈ l ∧ y ∈ f x.
Proof.
  induction l as [|x l IH]; [by intros ?%elem_of_nil|].
  rewrite fmap_cons, concat_cons, elem_of_app. intros [Hy|Hy].
  - exists x. split; [left | done].
  - destruct (IH Hy) as (x' & Hx' & Hy'). exists x'. split; [by right | done].
Qed.

(** X17.  Outputs and scores are aligned: with distinct criterion names, a
    run that returns has made one row per output, each the output of the LMP
    call of a datapoint of the dataset, such that [outputs] lists the outputs
    of the rows and [scores[name]], for every criterion, the float of the
    criterion on each row's datapoint and output, in the same order. *)
Theorem scores_aligned_with_outputs self lmp n_workers api v samples sched w r w' :
  NoDup (criteria self).*1 →
  run self lmp n_workers api v samples sched w = (Ok r, w') →
  let p := run_api_params self api samples in
  ∃ rows : list (Datapoint * PyVal),
    Forall (λ row, row.1 ∈ dataset self ∧ row.2 ∈ lmp_outputs v row.1 lmp p) rows ∧
    EvaluationRun.outputs r = rows.*2 ∧
    ∀ name crit, (name, crit) ∈ criteria self →
      Ok <$> EvaluationRun.scores_at r name = (λ row, score crit row.1 row.2) <$> rows.
Proof.
  intros Hnd (results & Htasks & _ & -> & _)%run_Ok p. fold p in Htasks.
  exists (concat ((λ dp, (dp,.) <$> lmp_outputs v dp lmp p)
                    <$> as_completed sched (dataset self))).
  split; [|split].
  - apply Forall_forall. intros [dp o].
    intros (dp' & Hdp & (o' & [= -> ->] & Ho)%list_elem_of_fmap)%elem_of_concat_fmap.
    cbn.
    split; [|done]. by rewrite as_completed_Permutation in Hdp.
  - cbn. rewrite (results_outputs _ _ _ _ _ _ Htasks), fmap_concat_fmap.
    f_equal. apply list_fmap_ext. intros _ dp _.
    rewrite <- list_fmap_compose. symmetry. apply list_fmap_id.
  - intros name crit Hin. unfold EvaluationRun.scores_at. cbn [EvaluationRun.scores].
    pose proof (results_scores _ _ _ _ _ _ _ _ ∅ Hnd Hin Htasks) as Hs.
    rewrite lookup_empty in Hs. cbn in Hs.
    destruct (criteria self) as [|c cs] eqn:Hc; [by apply elem_of_nil in Hin|].
    rewrite Hs, fmap_concat_fmap. f_equal. apply list_fmap_ext. intros _ dp _.
    by rewrite <- list_fmap_compose.
Qed.

Lemma extend_scores_is_Some (s : gmap string (list spec_float)) result name :
  is_Some (extend_scores s result !! name) ↔ is_Some (s !! name) ∨ name ∈ result.*1.
Proof.
  revert s. induction result as [|[n l] result IH]; intros s.
  - cbn. rewrite elem_of_nil. tauto.
  - rewrite extend_scores_cons, IH, fmap_cons, elem_of_cons. cbn.
    destruct (decide (n = name)) as [->|Hne].
    + rewrite lookup_insert_eq. split; [auto|]. intros _. left. by eexists.
    + rewrite lookup_insert_ne by done. split; [tauto|].
      intros [?|[?|?]]; [tauto | congruence | tauto].
Qed.

(** X18.  The keys of the scores of a run that returns are the names of the
    criteria, all of them and nothing else, unless the dataset is empty: then
    there are no keys. *)
Theorem score_keys_are_criteria_names self lmp n_workers api v samples sched w r w' :
  run self lmp n_workers api v samples sched w = (Ok r, w') →
  ∀ name, is_Some (EvaluationRun.scores r !! name) ↔
          dataset self ≠ [] ∧ name ∈ (criteria self).*1.
Proof.
  intros (results & Htasks & _ & -> & _)%run_Ok name.
  cbn [EvaluationRun.scores].
  assert (dataset self ≠ [] ↔ results ≠ []) as ->.
  { apply Forall2_length in Htasks.
    rewrite (Permutation_length (as_completed_Permutation sched _)) in Htasks.
    destruct (dataset self), results; done. }
  assert (Forall (λ res : TaskResult, res.2.*1 = (criteria self).*1) results) as Hnames.
  { apply Forall_forall. intros [outs sc] Hres.
    apply list_elem_of_lookup in Hres as [i Hi].
    destruct (Forall2_lookup_r _ _ _ _ _ Htasks Hi) as (dp & _ & Htask).
    by apply process_single_names in Htask. }
  clear Htasks.
  assert (∀ s : gmap string (list spec_float),
            is_Some (foldl extend_scores s results.*2 !! name) ↔
            is_Some (s !! name) ∨ (results ≠ [] ∧ name ∈ (criteria self).*1)) as Hfold.
  { induction Hnames as [|res results Hres _ IH]; intros s.
    - cbn. split; [auto | by intros [?|[? _]]].
    - rewrite fmap_cons. cbn [foldl]. rewrite IH, extend_scores_is_Some, Hres.
      split; [|tauto]. intros [[?|?]|[_ ?]]; auto. }
  destruct (criteria self) as [|c cs] eqn:Hc.
  - rewrite lookup_empty, elem_of_nil. split; [by intros [? ?] | tauto].
  - rewrite Hfold, lookup_empty. split; [|auto]. intros [[? ?]|?]; done.
Qed.

(** X19.  A task that returns no output fails the run although no task
    failed: with at least one worker and every task returning, a datapoint
    whose LMP call gives the empty list makes the run raise the error of the
    progress display, an [IndexError] or a [StatisticsError], and the
    [IndexError] when there are no criteria. *)
Theorem empty_output_fails_run self lmp n_workers api v samples sched w
    (dp : Datapoint) sc :
  let p := run_api_params self api samples in
  (0 < n_workers)%Z →
  Forall (λ dp', is_ok (_process_single self v dp' lmp p) = true) (dataset self) →
  dp ∈ dataset self →
  _process_single self v dp lmp p = Ok ([], sc) →
  ∃ e w',
    run self lmp n_workers api v samples sched w = (Raise e, w') ∧
    (e = IndexError "list index out of range" ∨
     e = StatisticsError "mean requires at least one data point") ∧
    (criteria self = [] → e = IndexError "list index out of range").
Proof.
  intros p Hn Hall Hdp Htask.
  destruct (run self lmp n_workers api v samples sched w) as [[r|e] w'] eqn:Hrun.
  { apply run_Ok_tasks in Hrun as [_ Hne].
    apply (proj1 (Forall_forall _ _) Hne) in Hdp as (x & outs & sc' & Hx).
    fold p in Hx. congruence. }
  exists e, w'. split; [done|].
  assert (∀ e', Raise e' ∉ as_completed sched
            ((λ dp, _process_single self v dp lmp p) <$> dataset self)) as Hno.
  { intros e'. rewrite as_completed_Permutation.
    intros (dp' & He' & Hdp')%list_elem_of_fmap.
    apply (proj1 (Forall_forall _ _) Hall) in Hdp'. by rewrite <- He' in Hdp'. }
  rewrite run_eq in Hrun. fold p in Hrun.
  destruct (decide (n_workers ≤ 0)%Z); [lia|].
  destruct (drain _ _ _ _) as [[scores outputs]|e'] eqn:Hd; [done|].
  injection Hrun as -> _.
  apply drain_Raise_inv in Hd as [Hd|(output & result & _ & s1 & Hp)];
    [by apply Hno in Hd|].
  split; [by eapply set_postfix_Raise | intros Hc; by eapply set_postfix_no_criteria].
Qed.

(** Every order of the futures is the completion order of some schedule. *)
Lemma as_completed_any_order {A} (fs l : list A) :
  l ≡ₚ fs → ∃ sched, as_completed sched fs = l.
Proof.
  revert fs. induction l as [|x l IH]; intros fs Hperm.
  - apply Permutation_nil_l in Hperm. subst fs. by exists (@nil nat).
  - assert (x ∈ fs) as [k Hk]%list_elem_of_lookup by (rewrite <- Hperm; left).
    pose proof (lookup_lt_Some _ _ _ Hk) as Hlt.
    destruct (IH (delete k fs)) as [sched Hsched].
    { apply (Permutation_cons_inv (a := x)). rewrite Hperm.
      by apply delete_Permutation. }
    exists (k :: sched). unfold as_completed in *.
    destruct (length fs) as [|n] eqn:Hlen; [lia|].
    cbn [completion_order hd tl]. rewrite Hlen, Nat.mod_small, Hk by done.
    f_equal. rewrite <- Hsched. f_equal. rewrite length_delete by eauto. lia.
Qed.

(** X20.  The order of the outputs is the order of completion and nothing
    fixes it: when a run returns, then for every arrangement of the dataset
    there is an order of completion for which the run returns the outputs of
    the datapoints in that arrangement. *)
Theorem outputs_in_any_order self lmp n_workers api v samples sched0 w r0 w0
    (ds : list Datapoint) :
  run self lmp n_workers api v samples sched0 w = (Ok r0, w0) →
  ds ≡ₚ dataset self →
  let p := run_api_params self api samples in
  ∃ sched r w',
    run self lmp n_workers api v samples sched w = (Ok r, w') ∧
    EvaluationRun.outputs r = concat ((λ dp, lmp_outputs v dp lmp p) <$> ds).
Proof.
  intros [Hn Hall]%run_Ok_tasks Hperm p.
  destruct (as_completed_any_order (dataset self) ds Hperm) as [sched Hsched].
  destruct (run_returns self lmp n_workers api v samples sched w Hn Hall)
    as (r & w' & Hrun).
  exists sched, r, w'. split; [done|].
  apply run_Ok in Hrun as (results & Htasks & _ & -> & _). fold p in Htasks. cbn.
  by rewrite (results_outputs _ _ _ _ _ _ Htasks), Hsched.
Qed.

(** X21.  The parameters of a run can be replayed: passed as [api_params]
    to a run of the same evaluation with the same number of samples, the
    parameters of a record give the same parameters again. *)
Theorem run_api_params_replay self api samples :
  run_api_params self (Some (run_api_params self api samples)) samples =
  run_api_params self api samples.
Proof.
  unfold run_api_params. cbn [default].
  set (a := default ∅ api). set (d := default ∅ (default_api_params self)).
  assert ((a ∪ d) ∪ d = a ∪ d) as Hidem
    by by rewrite <- (assoc_L (∪)), (idemp_L (∪)).
  destruct (decide (1 < samples)%Z); unfold id; [|done].
  by rewrite <- insert_union_l, Hidem, insert_insert_eq.
Qed.

(** X22.  The error of a failed task reaches the caller unchanged: with at
    least one worker, when some task raises [e0] and every other task either
    raises the same error or returns at least one output, the run raises
    [e0], in every order of completion, and the verbosity flag is as
    before. *)
Theorem task_error_reaches_caller self lmp n_workers api v samples sched w e0 :
  let p := run_api_params self api samples in
  (0 < n_workers)%Z →
  Exists (λ dp, _process_single self v dp lmp p = Raise e0) (dataset self) →
  Forall (λ dp, _process_single self v dp lmp p = Raise e0 ∨
                ∃ x outs sc, _process_single self v dp lmp p = Ok (x :: outs, sc))
         (dataset self) →
  ∃ w', run self lmp n_workers api v samples sched w = (Raise e0, w') ∧
        verbose w' = verbose w.
Proof.
  intros p Hn (dp & Hdp & Htask)%Exists_exists Hall.
  destruct (run_Raise self lmp n_workers api v samples sched w dp e0 Hdp Htask)
    as (e & w' & Hrun).
  assert (e = e0) as ->.
  { destruct (run_Raise_inv _ _ _ _ _ _ _ _ _ _ Hrun)
      as [?|[(dp' & Hdp' & He)|(dp' & sc & Hdp' & He & _)]]; [lia| |];
      fold p in He; apply (proj1 (Forall_forall _ _) Hall) in Hdp';
      destruct Hdp' as [He0|(x & outs & sc' & Hok)]; congruence. }
  exists w'. split; [done|]. by apply run_Raise_world in Hrun as ->.
Qed.

End Properties.

(** ** The theorems at concrete inputs *)

Import Evaluation.

Lemma C2_scores_multiset_witness :
  ∃ r w',
    NoDup (criteria Example.greet).*1 ∧
    ("length", Example.length_of) ∈ criteria Example.greet ∧
    run Example.no_literal Example.greet Example.ann_twice 2 None true 1 [1]
        Example.world0 = (Ok r, w') ∧
    EvaluationRun.outputs r = [VStr "Bo"; VStr "Ann"; VStr "Ann"] ∧
    EvaluationRun.scores_at r "length" =
      [S754_finite false 4503599627370496 (-51);
       S754_finite false 6755399441055744 (-51);
       S754_finite false 6755399441055744 (-51)] ∧
    ∃ rows : list (Datapoint * PyVal * list spec_float),
      rows.*1.*1 ≡ₚ dataset Example.greet ∧
      Forall (λ '(dp, x, fs),
                match dp !! "input" with
                | Some (VList args) =>
                    Example.ann_twice true args []
                      (run_api_params Example.greet None 1) = Ok x
                | Some (VDict kwargs) =>
                    Example.ann_twice true [] kwargs
                      (run_api_params Example.greet None 1) = Ok x
                | _ => False
                end ∧
                Forall2 (λ o f, ∃ y, Example.length_of dp o = Ok y ∧
                                     py_float Example.no_literal y = Ok f)
                        (match x with VList l => l | _ => [x] end) fs) rows ∧
      EvaluationRun.outputs r =
        concat ((λ '(dp, x, fs), match x with VList l => l | _ => [x] end) <$> rows) ∧
      EvaluationRun.scores_at r "length" = concat rows.*2 ∧
      length (EvaluationRun.scores_at r "length") = length (EvaluationRun.outputs r).
Proof.
  eexists _, _.
  assert (NoDup (criteria Example.greet).*1) as Hnd by apply NoDup_singleton.
  assert (("length", Example.length_of) ∈ criteria Example.greet) as Hin
    by apply list_elem_of_here.
  split; [exact Hnd|]. split; [exact Hin|]. split; [reflexivity|].
  split; [reflexivity|]. split; [reflexivity|].
  exact (C2_scores_multiset Example.no_literal Example.greet Example.ann_twice 2 None
           true 1 [1] Example.world0 _ _ "length" Example.length_of Hnd Hin eq_refl).
Defined.

Lemma C3_outputs_without_criteria_witness :
  ∃ r w',
    criteria Example.greet_unscored = [] ∧
    run Example.no_literal Example.greet_unscored Example.ann_twice 1 None false 1 []
        Example.world0 = (Ok r, w') ∧
    EvaluationRun.outputs r = [VStr "Ann"; VStr "Ann"; VStr "Bo"] ∧
    EvaluationRun.scores r = ∅ ∧
    ∃ results : list PyVal,
      Forall2 (λ (dp : Datapoint) x,
                 match dp !! "input" with
                 | Some (VList args) =>
                     Example.ann_twice false args []
                       (run_api_params Example.greet_unscored None 1) = Ok x
                 | Some (VDict kwargs) =>
                     Example.ann_twice false [] kwargs
                       (run_api_params Example.greet_unscored None 1) = Ok x
                 | _ => False
                 end) (dataset Example.greet_unscored) results ∧
      length (EvaluationRun.outputs r) =
        sum_list_with (λ x, match x with VList l => length l | _ => 1 end) results.
Proof.
  eexists _, _. split; [reflexivity|]. split; [reflexivity|].
  split; [reflexivity|]. split; [reflexivity|].
  destruct (C3_outputs_without_criteria Example.no_literal Example.greet_unscored
              Example.ann_twice 1 None false 1 [] Example.world0 _ _ eq_refl eq_refl)
    as (results & Hcalls & Hlen & _).
  exists results. split; [exact Hcalls | exact Hlen].
Defined.

Lemma C4_input_dispatch_witness :
  Example.seven !! "input" = Some (VInt 7) ∧
  (∀ v lmp p,
     _process_single Example.no_literal Example.greet_seven v Example.seven lmp p =
     Raise (ValueError "Invalid input type: <class 'int'>")) ∧
  (Example.seven ∈ dataset Example.greet_seven →
   ∀ lmp n_workers api v samples sched w,
   ∃ e w' r0,
     run Example.no_literal Example.greet_seven lmp n_workers api v samples sched w =
       (Raise e, w') ∧
     record w' = Some r0 ∧ EvaluationRun.outputs r0 = [] ∧
     EvaluationRun.end_time r0 = None).
Proof.
  split; [reflexivity|].
  exact (C4_input_dispatch Example.no_literal Example.greet_seven Example.seven
           (VInt 7) eq_refl).
Defined.

Lemma C5_anonymous_rejected_witness :
  anonymous Example.a_lambda = true ∧
  Forall (λ c', named c' = true) [Example.a_def] ∧
  validate_criteria (CList [Example.a_def; Example.a_lambda]) =
    Raise (ValueError "Each criterion in a list must have a name (not a lambda)").
Proof.
  assert (Forall (λ c', named c' = true) [Example.a_def]) as Hpre
    by (constructor; [reflexivity | constructor]).
  split; [reflexivity|]. split; [exact Hpre|].
  exact (proj2 (C5_anonymous_rejected [Example.a_def] Example.a_lambda [] eq_refl) Hpre).
Defined.


Lemma C7_api_params_witness :
  ∃ r w',
    run Example.no_literal Example.greet_defaults Example.report 1
        (Some {[ "temperature" := VInt 0; "n" := VInt 5 ]}) false 3 []
        Example.world0 = (Ok r, w') ∧
    EvaluationRun.outputs r =
      [VTuple [VInt 0; VInt 1; VInt 3]; VTuple [VInt 0; VInt 1; VInt 3]] ∧
    (1 < 3)%Z ∧
    EvaluationRun.api_params r !! "n" = Some (VInt 3) ∧
    ("temperature" ≠ "n" ∨ (3 ≤ 1)%Z) ∧
    EvaluationRun.api_params r !! "temperature" = Some (VInt 0) ∧
    EvaluationRun.api_params r !! "top_p" = Some (VInt 1) ∧
    ∃ rows : list (Datapoint * PyVal),
      rows.*1 ≡ₚ dataset Example.greet_defaults ∧
      Forall (λ '(dp, x),
                match dp !! "input" with
                | Some (VList args) =>
                    Example.report false args [] (EvaluationRun.api_params r) = Ok x
                | Some (VDict kwargs) =>
                    Example.report false [] kwargs (EvaluationRun.api_params r) = Ok x
                | _ => False
                end) rows ∧
      EvaluationRun.outputs r =
        concat ((λ x, match x with VList l => l | _ => [x] end) <$> rows.*2).
Proof.
  pose proof (C7_api_params Example.no_literal Example.greet_defaults Example.report 1
                (Some {[ "temperature" := VInt 0; "n" := VInt 5 ]}) false 3 []
                Example.world0) as (Hk & Hn & _ & Hrun & _).
  assert (1 < 3)%Z as H13 by lia.
  assert ("temperature" ≠ "n" ∨ (3 ≤ 1)%Z) as Hne by (left; discriminate).
  assert ("top_p" ≠ "n" ∨ (3 ≤ 1)%Z) as Hne' by (left; discriminate).
  eexists _, _. split; [reflexivity|]. split; [reflexivity|].
  split; [exact H13|]. split; [exact (Hn H13)|]. split; [exact Hne|].
  split; [exact (Hk "temperature" Hne)|]. split; [exact (Hk "top_p" Hne')|].
  exact (proj2 (Hrun _ _ eq_refl)).
Defined.

Lemma C8_verbose_scoped_witness :
  ∃ r w',
    run Example.no_literal Example.greet Example.echo 2 None true 1 [1]
        Example.world0 = (Ok r, w') ∧
    verbose Example.world0 = false ∧ verbose w' = false ∧
    EvaluationRun.outputs r ≡ₚ
      concat ((λ dp, lmp_outputs true dp Example.echo
                       (run_api_params Example.greet None 1))
                <$> dataset Example.greet).
Proof.
  eexists _, _. split; [reflexivity|]. split; [reflexivity|].
  pose proof (C8_verbose_scoped Example.no_literal Example.greet Example.echo 2 None
                true 1 [1] Example.world0) as (Hv & Hout & _).
  split; [exact Hv|]. exact (Hout _ _ eq_refl).
Defined.


Lemma C10_only_list_is_many_witness :
  call_lmp false Example.ann Example.echo_tuple ∅ = Ok (VTuple [VStr "Ann"]) ∧
  _process_single Example.no_literal Example.greet false Example.ann
    Example.echo_tuple ∅ =
    Ok ([VTuple [VStr "Ann"]], [("length", [S754_finite false 4503599627370496 (-52)])]) ∧
  is_list (VTuple [VStr "Ann"]) = false ∧
  lmp_outputs false Example.ann Example.echo_tuple ∅ = [VTuple [VStr "Ann"]].
Proof.
  split; [reflexivity|]. split; [reflexivity|]. split; [reflexivity|].
  exact (proj1 (proj2 (proj1 (proj2
           (C10_only_list_is_many Example.no_literal Example.greet false Example.ann
              Example.echo_tuple ∅ _ _ _ eq_refl eq_refl)) eq_refl))).
Defined.

(** ** The further properties at concrete inputs *)

Lemma validated_list_keys_witness :
  validate_criteria (CList [Example.a_def; Example.a_shadow]) =
    Ok [("length", Example.a_shadow)] ∧
  NoDup [("length", Example.a_shadow)].*1 ∧
  (("length", Example.a_def) ∈ [("length", Example.a_shadow)] ↔
   ∃ pre post, [Example.a_def; Example.a_shadow] = pre ++ Example.a_def :: post ∧
               crit_name Example.a_def = Some "length" ∧
               Forall (λ c', crit_name c' ≠ Some "length") post).
Proof.
  split; [reflexivity|].
  destruct (validated_list_keys [Example.a_def; Example.a_shadow]
              [("length", Example.a_shadow)] eq_refl) as (Hnd & _ & Hpairs).
  split; [exact Hnd | exact (Hpairs "length" Example.a_def)].
Defined.

Lemma validated_list_in_order_witness :
  Forall (λ c, named c = true) [Example.a_def; Example.b_def] ∧
  NoDup (omap crit_name [Example.a_def; Example.b_def]) ∧
  validate_criteria (CList [Example.a_def; Example.b_def]) =
    Ok [("length", Example.a_def); ("none", Example.b_def)].
Proof.
  assert (Forall (λ c, named c = true) [Example.a_def; Example.b_def]) as Hall
    by (repeat constructor).
  assert (NoDup (omap crit_name [Example.a_def; Example.b_def])) as Hnd.
  { apply NoDup_cons_2; [|apply NoDup_singleton].
    intros Hin. apply list_elem_of_singleton in Hin. discriminate Hin. }
  split; [exact Hall|]. split; [exact Hnd|].
  exact (validated_list_in_order [Example.a_def; Example.b_def] Hall Hnd).
Defined.

Lemma non_callable_entry_names_type_witness :
  Forall (λ c, named c = true) [Example.a_def] ∧
  validate_criteria (CList [Example.a_def; NotCallable (VInt 3)]) =
    Raise (ValueError "Each criterion must be a callable, got <class 'int'>").
Proof.
  assert (Forall (λ c, named c = true) [Example.a_def]) as Hpre by (repeat constructor).
  split; [exact Hpre|].
  exact (proj1 (non_callable_entry_names_type [Example.a_def] (VInt 3) [] Hpre)).
Defined.

Lemma validated_criteria_validate_again_witness :
  validate_criteria (CList [Example.a_def]) = Ok [("length", Example.a_def)] ∧
  validate_criteria (CDict [("length", Example.a_def)]) = Ok [("length", Example.a_def)].
Proof.
  split; [reflexivity|].
  exact (validated_criteria_validate_again (CList [Example.a_def]) _ eq_refl).
Defined.

Lemma missing_input_key_witness :
  Example.no_input !! "input" = None ∧
  Example.no_input ∈ dataset Example.greet_no_input ∧
  (∀ v lmp p,
     _process_single Example.no_literal Example.greet_no_input v Example.no_input lmp p =
     Raise (KeyError "input")) ∧
  (∀ lmp n_workers api v samples sched w,
   ∃ e w', run Example.no_literal Example.greet_no_input lmp n_workers api v samples
             sched w = (Raise e, w') ∧ verbose w' = verbose w).
Proof.
  assert (Example.no_input ∈ dataset Example.greet_no_input) as Hin
    by (apply list_elem_of_further, list_elem_of_here).
  destruct (missing_input_key Example.no_literal Example.greet_no_input Example.no_input
              eq_refl) as [Htask Hrun].
  split; [reflexivity|]. split; [exact Hin|]. split; [exact Htask | exact (Hrun Hin)].
Defined.

Lemma api_params_key_collides_witness :
  Example.clash !! "input" = Some (VDict [("api_params", VInt 1)]) ∧
  "api_params" ∈ [("api_params", VInt 1)].*1 ∧
  Example.clash ∈ dataset Example.greet_clash ∧
  (∀ v lmp p, ∃ m,
     _process_single Example.no_literal Example.greet_clash v Example.clash lmp p =
     Raise (TypeError m)) ∧
  (∀ lmp n_workers api v samples sched w,
   ∃ e w', run Example.no_literal Example.greet_clash lmp n_workers api v samples
             sched w = (Raise e, w')).
Proof.
  assert ("api_params" ∈ [("api_params", VInt 1)].*1) as Hkey by apply list_elem_of_here.
  assert (Example.clash ∈ dataset Example.greet_clash) as Hin
    by (apply list_elem_of_further, list_elem_of_here).
  destruct (api_params_key_collides Example.no_literal Example.greet_clash Example.clash
              [("api_params", VInt 1)] eq_refl Hkey) as [Htask Hrun].
  split; [reflexivity|]. split; [exact Hkey|]. split; [exact Hin|].
  split; [exact Htask | exact (Hrun Hin)].
Defined.

Lemma task_result_shape_witness :
  _process_single Example.no_literal Example.greet false Example.bo
    (λ _ _ _ _, Ok (VList [VStr "Bo"; VStr "Robert"])) ∅ =
    Ok ([VStr "Bo"; VStr "Robert"],
        [("length", [S754_finite false 4503599627370496 (-51);
                     S754_finite false 6755399441055744 (-50)])]) ∧
  [("length", [S754_finite false 4503599627370496 (-51);
               S754_finite false 6755399441055744 (-50)])].*1 =
    (criteria Example.greet).*1 ∧
  Forall (λ row : string * list spec_float, length row.2 = 2)
    [("length", [S754_finite false 4503599627370496 (-51);
                 S754_finite false 6755399441055744 (-50)])].
Proof.
  split; [reflexivity|].
  exact (proj2 (task_result_shape Example.no_literal Example.greet false Example.bo
                  (λ _ _ _ _, Ok (VList [VStr "Bo"; VStr "Robert"])) ∅ _ _ eq_refl)).
Defined.

Lemma first_failing_score_is_raised_witness :
  call_lmp false Example.ann Example.echo ∅ = Ok (VStr "Ann") ∧
  criteria Example.greet_two =
    [("length", Example.length_of)] ++ [("none", Example.no_score)] ∧
  score Example.no_literal Example.length_of Example.ann (VStr "Ann") =
    Ok (S754_finite false 6755399441055744 (-51)) ∧
  score Example.no_literal Example.no_score Example.ann (VStr "Ann") =
    Raise (TypeError "float() argument must be a string or a real number, not 'NoneType'") ∧
  _process_single Example.no_literal Example.greet_two false Example.ann Example.echo ∅ =
    Raise (TypeError "float() argument must be a string or a real number, not 'NoneType'").
Proof.
  split; [reflexivity|]. split; [reflexivity|]. split; [reflexivity|].
  split; [reflexivity|].
  apply (first_failing_score_is_raised Example.no_literal Example.greet_two false
           Example.ann Example.echo ∅ (VStr "Ann")
           [("length", Example.length_of)] "none" Example.no_score []
           [] (VStr "Ann") []).
  - reflexivity.
  - reflexivity.
  - reflexivity.
  - repeat constructor.
  - constructor.
  - reflexivity.
Defined.

Lemma no_workers_refused_witness :
  (0 ≤ 0)%Z ∧
  (run Example.no_literal Example.greet Example.echo 0 None true 1 []
     Example.world0).1 = Raise (ValueError "max_workers must be greater than 0") ∧
  verbose (run Example.no_literal Example.greet Example.echo 0 None true 1 []
             Example.world0).2 = false.
Proof.
  assert (0 ≤ 0)%Z as Hn by lia.
  split; [exact Hn|].
  exact (no_workers_refused Example.no_literal Example.greet Example.echo 0 None true 1
           [] Example.world0 Hn).
Defined.

Lemma empty_dataset_returns_witness :
  dataset Example.greet_empty = [] ∧ (0 < 1)%Z ∧
  ∃ r w',
    run Example.no_literal Example.greet_empty Example.echo 1 None false 1 []
        Example.world0 = (Ok r, w') ∧
    EvaluationRun.outputs r = [] ∧ EvaluationRun.scores r = ∅ ∧
    EvaluationRun.api_params r = run_api_params Example.greet_empty None 1 ∧
    EvaluationRun.start_time r = 100%Z ∧
    EvaluationRun.end_time r = Some 101%Z.
Proof.
  assert (0 < 1)%Z as Hn by lia.
  split; [reflexivity|]. split; [exact Hn|].
  exact (empty_dataset_returns Example.no_literal Example.greet_empty Example.echo 1
           None false 1 [] Example.world0 eq_refl Hn).
Defined.

Lemma run_returns_iff_witness :
  (∃ r w', run Example.no_literal Example.greet Example.echo 1 None false 1 [1]
             Example.world0 = (Ok r, w')) ∧
  (0 < 1)%Z ∧
  Forall (λ dp, ∃ x outs sc,
            _process_single Example.no_literal Example.greet false dp Example.echo
              (run_api_params Example.greet None 1) = Ok (x :: outs, sc))
         (dataset Example.greet).
Proof.
  assert (∃ r w', run Example.no_literal Example.greet Example.echo 1 None false 1 [1]
                    Example.world0 = (Ok r, w')) as Hrun
    by (eexists _, _; reflexivity).
  split; [exact Hrun|].
  exact (proj1 (run_returns_iff Example.no_literal Example.greet Example.echo 1 None
                  false 1 [1] Example.world0) Hrun).
Defined.

Lemma run_outcome_independent_of_order_witness :
  ∃ r1 w1 r2 w2,
    run Example.no_literal Example.greet Example.echo 2 None false 1 []
        Example.world0 = (Ok r1, w1) ∧
    run Example.no_literal Example.greet Example.echo 2 None false 1 [1]
        Example.world0 = (Ok r2, w2) ∧
    EvaluationRun.outputs r1 = [VStr "Ann"; VStr "Bo"] ∧
    EvaluationRun.outputs r2 = [VStr "Bo"; VStr "Ann"] ∧
    EvaluationRun.outputs r1 ≡ₚ EvaluationRun.outputs r2 ∧
    EvaluationRun.scores_at r1 "length" ≡ₚ EvaluationRun.scores_at r2 "length".
Proof.
  eexists _, _, _, _. split; [reflexivity|]. split; [reflexivity|].
  split; [reflexivity|]. split; [reflexivity|].
  destruct (proj2 (run_outcome_independent_of_order Example.no_literal Example.greet
                     Example.echo 2 None false 1 [] [1] Example.world0)
              _ _ _ _ eq_refl eq_refl) as (Hout & Hsc & _).
  split; [exact Hout | exact (Hsc "length")].
Defined.

Lemma scores_aligned_with_outputs_witness :
  NoDup (criteria Example.greet).*1 ∧
  ∃ r w',
    run Example.no_literal Example.greet Example.echo 2 None false 1 [1]
        Example.world0 = (Ok r, w') ∧
    ∃ rows : list (Datapoint * PyVal),
      Forall (λ row, row.1 ∈ dataset Example.greet ∧
                     row.2 ∈ lmp_outputs false row.1 Example.echo
                               (run_api_params Example.greet None 1)) rows ∧
      EvaluationRun.outputs r = rows.*2 ∧
      ∀ name crit, (name, crit) ∈ criteria Example.greet →
        Ok <$> EvaluationRun.scores_at r name =
        (λ row, score Example.no_literal crit row.1 row.2) <$> rows.
Proof.
  assert (NoDup (criteria Example.greet).*1) as Hnd by apply NoDup_singleton.
  split; [exact Hnd|]. eexists _, _. split; [reflexivity|].
  exact (scores_aligned_with_outputs Example.no_literal Example.greet Example.echo 2
           None false 1 [1] Example.world0 _ _ Hnd eq_refl).
Defined.

Lemma score_keys_are_criteria_names_witness :
  ∃ r w',
    run Example.no_literal Example.greet Example.echo 1 None false 1 []
        Example.world0 = (Ok r, w') ∧
    ∀ name, is_Some (EvaluationRun.scores r !! name) ↔
            dataset Example.greet ≠ [] ∧ name ∈ (criteria Example.greet).*1.
Proof.
  eexists _, _. split; [reflexivity|].
  exact (score_keys_are_criteria_names Example.no_literal Example.greet Example.echo 1
           None false 1 [] Example.world0 _ _ eq_refl).
Defined.

Lemma empty_output_fails_run_witness :
  (0 < 1)%Z ∧
  Forall (λ dp', is_ok (_process_single Example.no_literal Example.greet_unscored false
                          dp' Example.silent
                          (run_api_params Example.greet_unscored None 1)) = true)
         (dataset Example.greet_unscored) ∧
  Example.bo ∈ dataset Example.greet_unscored ∧
  _process_single Example.no_literal Example.greet_unscored false Example.bo
    Example.silent (run_api_params Example.greet_unscored None 1) = Ok ([], []) ∧
  ∃ e w',
    run Example.no_literal Example.greet_unscored Example.silent 1 None false 1 []
        Example.world0 = (Raise e, w') ∧
    (e = IndexError "list index out of range" ∨
     e = StatisticsError "mean requires at least one data point") ∧
    (criteria Example.greet_unscored = [] → e = IndexError "list index out of range").
Proof.
  assert (0 < 1)%Z as Hn by lia.
  assert (Forall (λ dp', is_ok (_process_single Example.no_literal Example.greet_unscored
                                  false dp' Example.silent
                                  (run_api_params Example.greet_unscored None 1)) = true)
                 (dataset Example.greet_unscored)) as Hall by (repeat constructor).
  assert (Example.bo ∈ dataset Example.greet_unscored) as Hin
    by (apply list_elem_of_further, list_elem_of_here).
  split; [exact Hn|]. split; [exact Hall|]. split; [exact Hin|]. split; [reflexivity|].
  exact (empty_output_fails_run Example.no_literal Example.greet_unscored Example.silent
           1 None false 1 [] Example.world0 Example.bo [] Hn Hall Hin eq_refl).
Defined.

Lemma outputs_in_any_order_witness :
  [Example.bo; Example.ann] ≡ₚ dataset Example.greet ∧
  ∃ sched r w',
    run Example.no_literal Example.greet Example.echo 1 None false 1 sched
        Example.world0 = (Ok r, w') ∧
    EvaluationRun.outputs r =
      concat ((λ dp, lmp_outputs false dp Example.echo
                       (run_api_params Example.greet None 1))
                <$> [Example.bo; Example.ann]).
Proof.
  assert ([Example.bo; Example.ann] ≡ₚ dataset Example.greet) as Hperm
    by apply Permutation_swap.
  split; [exact Hperm|].
  exact (outputs_in_any_order Example.no_literal Example.greet Example.echo 1 None
           false 1 [] Example.world0 _ _ [Example.bo; Example.ann] eq_refl Hperm).
Defined.

Lemma task_error_reaches_caller_witness :
  (0 < 1)%Z ∧
  _process_single Example.no_literal Example.greet_seven false Example.seven
    Example.echo (run_api_params Example.greet_seven None 1) =
    Raise (ValueError "Invalid input type: <class 'int'>") ∧
  _process_single Example.no_literal Example.greet_seven false Example.ann
    Example.echo (run_api_params Example.greet_seven None 1) =
    Ok ([VStr "Ann"], [("length", [S754_finite false 6755399441055744 (-51)])]) ∧
  ∀ sched, ∃ w',
    run Example.no_literal Example.greet_seven Example.echo 1 None false 1 sched
        Example.world0 =
      (Raise (ValueError "Invalid input type: <class 'int'>"), w') ∧
    verbose w' = verbose Example.world0.
Proof.
  assert (0 < 1)%Z as Hn by lia.
  split; [exact Hn|]. split; [reflexivity|]. split; [reflexivity|]. intros sched.
  apply (task_error_reaches_caller Example.no_literal Example.greet_seven Example.echo
           1 None false 1 sched Example.world0
           (ValueError "Invalid input type: <class 'int'>") Hn).
  - apply Exists_cons_tl, Exists_cons_hd. reflexivity.
  - constructor; [right; by eexists _, _, _|].
    constructor; [left; reflexivity | constructor].
Defined.
